(** * The RAG backend of [server.js]: a shallow embedding and its properties

    The server indexes a document (chunk, embed, upsert into Pinecone) and
    answers questions (embed, query, prompt a language model).  Every
    non-trivial operation is delegated to a library or a remote service, so
    the embedding has three layers:

    - [Js]: the fragment of JavaScript values the handlers inspect
      (truthiness, [typeof], property lookup, template literals, [join],
      [slice]);
    - [Eff]: programs as trees of calls to the outside world, with [throw],
      [try]/[catch] and an interpreter that records the calls made;
    - [Rag] and [Server]: the five pipeline functions and the two request
      handlers, line by line.

    Left out: [console.log] and [console.error], which change nothing the
    handlers answer or call; the health check, the 404 and the global error
    handlers; [app.listen] and shutdown; of the earlier TypeScript draft
    that follows the server in the source, all but its retrieval step; the
    Pinecone connection test.  A handler is run on [req.body] as
    [express.json()] parsed it, an object. *)

From Stdlib Require Import List String Ascii ZArith Lia Bool Arith.
From Stdlib Require Import Decimal DecimalNat DecimalZ DecimalString.
From Stdlib Require Import SpecFloat.
From Equations Require Import Equations.
Import ListNotations.

Local Open Scope list_scope.
Local Open Scope string_scope.

(* ===================================================================== *)
(** ** JavaScript values *)
(* ===================================================================== *)

Module Js.

(** A JavaScript number is an IEEE 754 double. *)
Definition number : Type := spec_float.

(** What [express.json()] can put in [req.body], plus [undefined] for a
    property that is not there.  An object is its list of properties. *)
#[warnings="-register-all"]
Inductive value : Type :=
| VUndefined
| VNull
| VBool (b : bool)
| VNumber (x : number)
| VString (s : string)
| VArray (elements : list value)
| VObject (properties : list (string * value)).

Definition object : Type := list (string * value).

(** [s.length] (strings are taken as sequences of one-unit characters). *)
Definition strlen (s : string) : Z := Z.of_nat (String.length s).

(** ToBoolean: [!v] is [negb (truthy v)]. *)
Definition truthy (v : value) : bool :=
  match v with
  | VUndefined | VNull => false
  | VBool b => b
  | VNumber (S754_zero _) | VNumber S754_nan => false
  | VNumber _ => true
  | VString s => negb (String.eqb s EmptyString)
  | VArray _ | VObject _ => true
  end.

Definition typeof (v : value) : string :=
  match v with
  | VUndefined => "undefined"
  | VNull => "object"
  | VBool _ => "boolean"
  | VNumber _ => "number"
  | VString _ => "string"
  | VArray _ | VObject _ => "object"
  end.

(** [o.k], and [const { k } = o]: [undefined] when [o] has no [k]. *)
Fixpoint get (o : object) (k : string) : value :=
  match o with
  | [] => VUndefined
  | (k', v) :: o' => if String.eqb k' k then v else get o' k
  end.

(** [o?.k] on an object that may itself be [undefined]. *)
Definition get_opt (o : option object) (k : string) : value :=
  match o with
  | None => VUndefined
  | Some o => get o k
  end.

(** The line feed of a multi-line template literal and of ["\n"]. *)
Definition LF : string := String (ascii_of_nat 10) EmptyString.

(** [`${n}`] for an array index or a length. *)
Definition string_of_nat (n : nat) : string :=
  NilZero.string_of_uint (Nat.to_uint n).

(** [`${z}`] for an integral number such as [Date.now()]. *)
Definition string_of_Z (z : Z) : string :=
  NilZero.string_of_int (Z.to_int z).

(** [xs.map((x, i) => f(x, i))], the index counted from [i]. *)
Fixpoint mapi_from {A B} (f : A -> nat -> B) (i : nat) (xs : list A) : list B :=
  match xs with
  | [] => []
  | x :: xs' => f x i :: mapi_from f (S i) xs'
  end.

Definition mapi {A B} (f : A -> nat -> B) (xs : list A) : list B :=
  mapi_from f 0 xs.

(** [xs.join(sep)] on an array of strings. *)
Fixpoint join (sep : string) (xs : list string) : string :=
  match xs with
  | [] => EmptyString
  | [x] => x
  | x :: xs' => x ++ sep ++ join sep xs'
  end.

(** [xs.slice(i, j)] for [0 <= i <= j]. *)
Definition slice {A} (i j : nat) (xs : list A) : list A :=
  firstn (j - i) (skipn i xs).

End Js.
Import Js.

(* ===================================================================== *)
(** ** The libraries and services the server calls *)
(* ===================================================================== *)

Module Sdk.

(** A thrown [Error]; only its [message] is ever read. *)
Record error : Type := Error { message : string }.

Definition vector : Type := list number.

(** Options of [new RecursiveCharacterTextSplitter({...})]. *)
Record splitter_options : Type :=
  { chunkSize : Z; chunkOverlap : Z }.

(** Options of [new GoogleGenerativeAIEmbeddings({...})]. *)
Record embeddings_options : Type :=
  { embeddings_apiKey : option string; embeddings_model : string }.

(** A record handed to [index.upsert]; [values] is [vectors[i]], which is
    [undefined] past the end of [vectors]. *)
Record record_metadata : Type :=
  { text : string; timestamp : string }.

Record record : Type :=
  { id : string; values : option vector; metadata : record_metadata }.

(** Argument of [index.query] and one element of its [matches]. *)
Record query_options : Type :=
  { query_vector : vector; topK : Z; includeMetadata : bool }.

Record scored_match : Type :=
  { match_id : string; match_score : number; match_metadata : option object }.

(** Argument of [ai.models.generateContent]. *)
Record generate_params : Type :=
  { model : string; contents : string }.

(** One call out of the server's own code, indexed by what comes back.
    A constructor or an awaited method may throw or reject, so it yields
    [error + _]; the clock and the random source always yield a value. *)
Inductive ext : Type -> Type :=
| DateNow : ext Z
    (* Date.now() *)
| RandomSuffix : ext string
    (* Math.random().toString(36).substr(2, 9) *)
| IsoTimestamp : ext string
    (* new Date().toISOString() *)
| NewSplitter (o : splitter_options) : ext (error + unit)
| SplitText (o : splitter_options) (documentText : string)
    : ext (error + list string)
| NewEmbeddings (o : embeddings_options) : ext (error + unit)
| EmbedDocuments (o : embeddings_options) (chunks : list string)
    : ext (error + list vector)
| EmbedQuery (o : embeddings_options) (question : string)
    : ext (error + vector)
| NewPinecone (apiKey : string) : ext (error + unit)
| PineconeIndex (name : string) : ext (error + unit)
| Upsert (index : string) (batch : list record) : ext (error + unit)
| Query (index : string) (q : query_options)
    : ext (error + list scored_match)
| NewGoogleGenAI (apiKey : option string) : ext (error + unit)
| GenerateContent (p : generate_params) : ext (error + string).

End Sdk.
Import Sdk.

(* ===================================================================== *)
(** ** Programs, exceptions and their runs *)
(* ===================================================================== *)

Module Eff.

(** A program is a tree: it returns, throws, or calls out and goes on with
    the answer. *)
Inductive prog (A : Type) : Type :=
| Ret (a : A)
| Throw (e : error)
| Call {R : Type} (op : ext R) (k : R -> prog A).

Arguments Ret {A} a.
Arguments Throw {A} e.
Arguments Call {A R} op k.

Fixpoint bind {A B} (p : prog A) (f : A -> prog B) : prog B :=
  match p with
  | Ret a => f a
  | Throw e => Throw e
  | Call op k => Call op (fun r => bind (k r) f)
  end.

(** [try { p } catch (error) { h error }] *)
Fixpoint try_catch {A} (p : prog A) (h : error -> prog A) : prog A :=
  match p with
  | Ret a => Ret a
  | Throw e => h e
  | Call op k => Call op (fun r => try_catch (k r) h)
  end.

(** A call that cannot fail. *)
Definition ask {R} (op : ext R) : prog R := Call op Ret.

(** [await op] and [new C(...)]: the failure is thrown. *)
Definition await {R} (op : ext (error + R)) : prog R :=
  Call op (fun r => match r with inl e => Throw e | inr x => Ret x end).

Declare Scope prog_scope.
Delimit Scope prog_scope with prog.
Notation "x <- p ;; q" := (bind p (fun x => q))
  (at level 61, p at next level, right associativity) : prog_scope.
Notation "p ;; q" := (bind p (fun _ => q))
  (at level 61, right associativity) : prog_scope.

(** [xs.map] with a callback that calls out: elements in order. *)
Fixpoint mapi_from_M {A B} (f : A -> nat -> prog B) (i : nat) (xs : list A)
  : prog (list B) :=
  match xs with
  | [] => Ret []
  | x :: xs' =>
      (y <- f x i ;; ys <- mapi_from_M f (S i) xs' ;; Ret (y :: ys))%prog
  end.

Definition mapi_M {A B} (f : A -> nat -> prog B) (xs : list A) : prog (list B) :=
  mapi_from_M f 0 xs.

(** What a run ends in, and one recorded call with its answer. *)
Inductive outcome (A : Type) : Type :=
| Returned (a : A)
| Thrown (e : error).

Arguments Returned {A} a.
Arguments Thrown {A} e.

Inductive event : Type :=
| Ev {R : Type} (op : ext R) (r : R).

Definition trace : Type := list event.

(** The outside world: a state and its answer to every call. *)
Definition oracle (W : Type) : Type := forall R, ext R -> W -> R * W.

Section Run.

Context {W : Type} (world : oracle W).

Fixpoint run {A} (p : prog A) (w : W) : outcome A * trace * W :=
  match p with
  | Ret a => (Returned a, [], w)
  | Throw e => (Thrown e, [], w)
  | Call op k =>
      let '(r, w1) := world _ op w in
      let '(o, tr, w2) := run (k r) w1 in
      (o, Ev op r :: tr, w2)
  end.

End Run.

End Eff.
Import Eff.
Local Open Scope prog_scope.

(* ===================================================================== *)
(** ** The RAG pipeline functions *)
(* ===================================================================== *)

Module Rag.

(** The part of [process.env] the server reads. *)
Record environment : Type :=
  { PINECONE_API_KEY : string;
    GEMINI_API_KEY : option string;
    NODE_ENV : string }.

Definition PINECONE_INDEX_NAME : string := "rag-example-768".

(** The string behind a value whose [typeof] is ["string"]. *)
Definition as_string (v : value) : string :=
  match v with
  | VString s => s
  | _ => EmptyString
  end.

(** [!v || typeof v !== 'string'] *)
Definition not_a_text (v : value) : bool :=
  negb (truthy v) || negb (String.eqb (typeof v) "string").

(** *** Step 1: chunking *)

(** The body of [processDocument], with the options of its
    [new RecursiveCharacterTextSplitter({...})] as a parameter; the source
    runs it on the literal [splitter] below and on nothing else. *)
Definition processDocument_with (o : splitter_options) (documentText : value)
  : prog (list string) :=
  if not_a_text documentText then
    Throw (Error "Invalid document text provided")
  else
    await (NewSplitter o) ;;
    chunks <- await (SplitText o (as_string documentText)) ;;
    if (List.length chunks =? 0)%nat then
      Throw (Error "Document chunking resulted in zero chunks")
    else
      Ret chunks.

Definition splitter : splitter_options :=
  {| chunkSize := 500; chunkOverlap := 100 |}.

Definition processDocument (documentText : value) : prog (list string) :=
  processDocument_with splitter documentText.

(** *** Step 5, pure part: the prompt of [generateAnswer] *)

Definition prompt (question : string) (context : list string) : string :=
  "You are a helpful assistant. Answer the question using ONLY the provided context."
  ++ LF ++
  "If the answer is not found in the context, state that clearly and do not make up information."
  ++ LF ++ LF ++
  "Question: " ++ question
  ++ LF ++ LF ++
  "Context:"
  ++ LF ++
  join (LF ++ LF)
    (mapi (fun c i => "[" ++ string_of_nat (i + 1) ++ "] " ++ c) context)
  ++ LF ++ LF ++
  "Answer with citations (e.g., [1], [2]):".

(** *** Step 4, pure part: the texts kept from the matches *)

Definition match_text (m : scored_match) : value :=
  get_opt (match_metadata m) "text".

Definition relevantChunks (matches : list scored_match) : list string :=
  map (fun m => as_string (match_text m))
    (filter (fun m => truthy (match_text m)
                      && String.eqb (typeof (match_text m)) "string")
       matches).

Section Pipeline.

Variable env : environment.

Definition embeddings : embeddings_options :=
  {| embeddings_apiKey := GEMINI_API_KEY env;
     embeddings_model := "text-embedding-004" |}.

(** *** Step 2: embeddings *)

Definition generateEmbeddings (chunks : list string) : prog (list vector) :=
  if (List.length chunks =? 0)%nat then
    Throw (Error "Invalid chunks array provided")
  else
    await (NewEmbeddings embeddings) ;;
    vectors <- await (EmbedDocuments embeddings chunks) ;;
    match vectors with
    | [] =>
        Throw (Error "Failed to generate valid embeddings - empty vectors returned")
    | v0 :: _ =>
        if (List.length v0 =? 0)%nat then
          Throw (Error "Failed to generate valid embeddings - empty vectors returned")
        else
          Ret vectors
    end.

(** *** Step 3: storing *)

(** The callback of [chunks.map]: one record, its id drawn from the index,
    the clock and the random source. *)
Definition make_record (vectors : list vector) (chunk : string) (i : nat)
  : prog record :=
  now <- ask DateNow ;;
  suffix <- ask RandomSuffix ;;
  stamp <- ask IsoTimestamp ;;
  Ret {| id := "chunk_" ++ string_of_nat i ++ "_" ++ string_of_Z now
               ++ "_" ++ suffix;
         values := nth_error vectors i;
         metadata := {| text := chunk; timestamp := stamp |} |}.

Definition batchSize : nat := 100.

(** [for (let i = ...; i < records.length; i += batchSize)] from a given [i]. *)
Equations? upsert_from (records : list record) (i : nat) : prog unit
  by wf (List.length records - i) lt :=
upsert_from records i with lt_dec i (List.length records) => {
  | left _ =>
      Call (Upsert PINECONE_INDEX_NAME (slice i (i + batchSize) records))
        (fun r =>
           match r with
           | inl e => Throw e
           | inr _ => upsert_from records (i + batchSize)
           end);
  | right _ => Ret tt }.
Proof. unfold batchSize. lia. Qed.

Definition storeInPinecone (chunks : list string) (vectors : list vector)
  : prog nat :=
  if negb (List.length chunks =? List.length vectors)%nat then
    Throw (Error "Mismatch between chunks and vectors length")
  else
    await (NewPinecone (PINECONE_API_KEY env)) ;;
    await (PineconeIndex PINECONE_INDEX_NAME) ;;
    records <- mapi_M (make_record vectors) chunks ;;
    upsert_from records 0 ;;
    Ret (List.length records).

(** *** Step 4: retrieval *)

Definition queryDocument (question : value) : prog (list string) :=
  if not_a_text question then
    Throw (Error "Invalid question provided")
  else
    await (NewEmbeddings embeddings) ;;
    queryVector <- await (EmbedQuery embeddings (as_string question)) ;;
    await (NewPinecone (PINECONE_API_KEY env)) ;;
    await (PineconeIndex PINECONE_INDEX_NAME) ;;
    matches <- await (Query PINECONE_INDEX_NAME
                        {| query_vector := queryVector;
                           topK := 3;
                           includeMetadata := true |}) ;;
    Ret (relevantChunks matches).

(** *** Step 5: the answer *)

Definition generateAnswer (question : string) (context : list string)
  : prog string :=
  if (List.length context =? 0)%nat then
    Throw (Error "No context available for answer generation")
  else
    await (NewGoogleGenAI (GEMINI_API_KEY env)) ;;
    response_text <- await (GenerateContent
                              {| model := "gemini-2.5-flash";
                                 contents := prompt question context |}) ;;
    Ret response_text.

End Pipeline.

End Rag.
Import Rag.

(* ===================================================================== *)
(** ** The two request handlers *)
(* ===================================================================== *)

Module Server.

(** The JSON bodies the handlers send: [success] is [false] in the first
    shape and [true] in the other two; an [undefined] property is left out. *)
Inductive body : Type :=
| Failure (error : string) (details : option string) (duration : option Z)
| Indexed (message : string) (chunkCount recordCount : nat) (duration : Z)
| Answered (answer : string) (chunksRetrieved : nat) (duration : Z).

Definition success (b : body) : bool :=
  match b with
  | Failure _ _ _ => false
  | Indexed _ _ _ _ | Answered _ _ _ => true
  end.

(** [res.status(status).json(json)] *)
Record response : Type := { status : Z; json : body }.

Definition not_found_answer : string :=
  "I couldn't find any relevant information in the document store to answer that question.".

Section Handlers.

Variable env : environment.

(** [NODE_ENV === 'development' ? error.message : undefined] *)
Definition details_of (e : error) : option string :=
  if String.eqb (NODE_ENV env) "development" then Some (message e) else None.

(** [app.post('/api/index-document', ...)] on the parsed request body. *)
Definition index_document (req_body : object) : prog response :=
  startTime <- ask DateNow ;;
  try_catch
    (let documentText := get req_body "documentText" in
     if negb (truthy documentText) then
       Ret {| status := 400;
              json := Failure "Document text is required." None None |}
     else if negb (String.eqb (typeof documentText) "string") then
       Ret {| status := 400;
              json := Failure "Document text must be a string." None None |}
     else if (strlen (as_string documentText) >? 500000)%Z then
       Ret {| status := 400;
              json := Failure
                        "Document text exceeds maximum length of 500,000 characters."
                        None None |}
     else
       chunks <- processDocument documentText ;;
       vectors <- generateEmbeddings env chunks ;;
       recordCount <- storeInPinecone env chunks vectors ;;
       now <- ask DateNow ;;
       let duration := (now - startTime)%Z in
       Ret {| status := 200;
              json := Indexed
                        ("Document successfully indexed with "
                         ++ string_of_nat (List.length chunks) ++ " chunks.")
                        (List.length chunks) recordCount duration |})
    (fun error =>
       now <- ask DateNow ;;
       let duration := (now - startTime)%Z in
       Ret {| status := 500;
              json := Failure "Failed to index document. Please try again."
                        (details_of error) (Some duration) |}).

(** [app.post('/api/answer-question', ...)] on the parsed request body. *)
Definition answer_question (req_body : object) : prog response :=
  startTime <- ask DateNow ;;
  try_catch
    (let question := get req_body "question" in
     if negb (truthy question) then
       Ret {| status := 400;
              json := Failure "Question is required." None None |}
     else if negb (String.eqb (typeof question) "string") then
       Ret {| status := 400;
              json := Failure "Question must be a string." None None |}
     else if (strlen (as_string question) >? 1000)%Z then
       Ret {| status := 400;
              json := Failure
                        "Question exceeds maximum length of 1,000 characters."
                        None None |}
     else
       relevant <- queryDocument env question ;;
       if (List.length relevant =? 0)%nat then
         now <- ask DateNow ;;
         let duration := (now - startTime)%Z in
         Ret {| status := 200;
                json := Answered not_found_answer 0 duration |}
       else
         answer <- generateAnswer env (as_string question) relevant ;;
         now <- ask DateNow ;;
         let duration := (now - startTime)%Z in
         Ret {| status := 200;
                json := Answered answer (List.length relevant) duration |})
    (fun error =>
       now <- ask DateNow ;;
       let duration := (now - startTime)%Z in
       Ret {| status := 500;
              json := Failure "Failed to answer the question. Please try again."
                        (details_of error) (Some duration) |}).

End Handlers.

End Server.
Import Server.

(* ===================================================================== *)
(** ** A scripted outside world, for concrete runs *)
(* ===================================================================== *)

Module Script.

(** What the libraries and services answer.  The clients are always
    constructed; the splitter is constructed unless its options have
    [chunkOverlap >= chunkSize], which the library's constructor turns
    down; the clock ticks once per reading. *)
Record script : Type :=
  { split : splitter_options -> string -> error + list string;
    embed_documents : list string -> error + list vector;
    embed_query : string -> error + vector;
    upsert_fails_at : option nat;
    search : query_options -> error + list scored_match;
    complete : string -> error + string }.

(** The state: the clock and the number of upserts so far. *)
Definition state : Type := Z * nat.

Definition answers (s : script) : oracle state :=
  fun R op =>
    match op in ext R return state -> R * state with
    | DateNow => fun w => (fst w, ((fst w + 1)%Z, snd w))
    | RandomSuffix => fun w => ("k3x9q0z1a", w)
    | IsoTimestamp => fun w => ("2025-01-01T00:00:00.000Z", w)
    | NewSplitter o => fun w =>
        (if (chunkOverlap o >=? chunkSize o)%Z
         then inl (Error "Cannot have chunkOverlap >= chunkSize")
         else inr tt, w)
    | SplitText o t => fun w => (split s o t, w)
    | NewEmbeddings _ => fun w => (inr tt, w)
    | EmbedDocuments _ cs => fun w => (embed_documents s cs, w)
    | EmbedQuery _ q => fun w => (embed_query s q, w)
    | NewPinecone _ => fun w => (inr tt, w)
    | PineconeIndex _ => fun w => (inr tt, w)
    | Upsert _ _ => fun w =>
        (match upsert_fails_at s with
         | Some k => if (snd w =? k)%nat then inl (Error "upsert failed")
                     else inr tt
         | None => inr tt
         end, (fst w, S (snd w)))
    | Query _ q => fun w => (search s q, w)
    | NewGoogleGenAI _ => fun w => (inr tt, w)
    | GenerateContent p => fun w => (complete s (contents p), w)
    end.

Definition one : number := S754_finite false 4503599627370496 (-52).

(** A store that holds one chunk and a model that echoes its prompt. *)
Definition plain : script :=
  {| split := fun _ t => inr [t];
     embed_documents := fun cs => inr (map (fun _ => [one]) cs);
     embed_query := fun _ => inr [one];
     upsert_fails_at := None;
     search := fun _ =>
       inr [ {| match_id := "chunk_0";
                match_score := one;
                match_metadata := Some [("text", VString "A cat sat on a mat.")] |} ];
     complete := fun p => inr p |}.

(** The same, with a splitter that finds no chunk. *)
Definition blank : script :=
  {| split := fun _ _ => inr [];
     embed_documents := embed_documents plain;
     embed_query := embed_query plain;
     upsert_fails_at := None;
     search := search plain;
     complete := complete plain |}.

(** The same, with a store whose matches carry no usable text. *)
Definition no_text : script :=
  {| split := split plain;
     embed_documents := embed_documents plain;
     embed_query := embed_query plain;
     upsert_fails_at := None;
     search := fun _ =>
       inr [ {| match_id := "a"; match_score := one; match_metadata := None |};
             {| match_id := "b"; match_score := one;
                match_metadata := Some [("text", VString EmptyString)] |};
             {| match_id := "c"; match_score := one;
                match_metadata := Some [("text", VNumber one)] |} ];
     complete := complete plain |}.

(** The same, with a store that fails on its upsert number [k], from 0. *)
Definition failing_store (k : nat) : script :=
  {| split := split plain;
     embed_documents := embed_documents plain;
     embed_query := embed_query plain;
     upsert_fails_at := Some k;
     search := search plain;
     complete := complete plain |}.

(** 250 records, enough for three batches. *)
Definition sample_records : list record :=
  map (fun i => {| id := "chunk_" ++ string_of_nat i;
                   values := Some [one];
                   metadata := {| text := "chunk"; timestamp := "now" |} |})
    (seq 0 250).

Definition test_env : environment :=
  {| PINECONE_API_KEY := "pc-key";
     GEMINI_API_KEY := Some "g-key";
     NODE_ENV := "development" |}.

Definition start : state := (1000%Z, 0%nat).

End Script.
Import Script.

(* ===================================================================== *)
(** ** Reading a trace *)
(* ===================================================================== *)

Module Obs.

(** The error of a call that failed. *)
Definition failure (ev : event) : option error :=
  match ev with
  | Ev op r =>
      match op in ext R return R -> option error with
      | DateNow | RandomSuffix | IsoTimestamp => fun _ => None
      | NewSplitter _ | NewEmbeddings _ | NewPinecone _ | PineconeIndex _
      | Upsert _ _ | NewGoogleGenAI _ =>
          fun r => match r with inl e => Some e | inr _ => None end
      | SplitText _ _ =>
          fun r => match r with inl e => Some e | inr _ => None end
      | EmbedDocuments _ _ =>
          fun r => match r with inl e => Some e | inr _ => None end
      | EmbedQuery _ _ =>
          fun r => match r with inl e => Some e | inr _ => None end
      | Query _ _ =>
          fun r => match r with inl e => Some e | inr _ => None end
      | GenerateContent _ =>
          fun r => match r with inl e => Some e | inr _ => None end
      end r
  end.

(** The error of the last call of a trace, if that call failed. *)
Definition last_failure (tr : trace) : option error :=
  match List.rev tr with
  | [] => None
  | ev :: _ => failure ev
  end.

(** A call to the chunker, the embedder, the vector store or the language
    model: everything but the clock and the random source. *)
Definition downstream (ev : event) : bool :=
  match ev with
  | Ev DateNow _ | Ev RandomSuffix _ | Ev IsoTimestamp _ => false
  | Ev _ _ => true
  end.

(** A call to the language model or to its client's constructor. *)
Definition llm_call (ev : event) : bool :=
  match ev with
  | Ev (NewGoogleGenAI _) _ | Ev (GenerateContent _) _ => true
  | Ev _ _ => false
  end.

(** The prompts sent to the language model, in order. *)
Fixpoint prompts (tr : trace) : list string :=
  match tr with
  | [] => []
  | Ev (GenerateContent p) _ :: tr' => contents p :: prompts tr'
  | _ :: tr' => prompts tr'
  end.

(** The options every call to the splitter library was made with. *)
Fixpoint splitter_uses (tr : trace) : list splitter_options :=
  match tr with
  | [] => []
  | Ev (NewSplitter o) _ :: tr' => o :: splitter_uses tr'
  | Ev (SplitText o _) _ :: tr' => o :: splitter_uses tr'
  | _ :: tr' => splitter_uses tr'
  end.

(** The batches handed to [index.upsert], in order. *)
Fixpoint submitted (tr : trace) : list (list record) :=
  match tr with
  | [] => []
  | Ev (Upsert _ batch) _ :: tr' => batch :: submitted tr'
  | _ :: tr' => submitted tr'
  end.

(** The batches whose [index.upsert] resolved: what the store holds. *)
Fixpoint stored (tr : trace) : list (list record) :=
  match tr with
  | [] => []
  | ev :: tr' =>
      match ev with
      | Ev (Upsert _ batch) _ =>
          match failure ev with
          | None => batch :: stored tr'
          | Some _ => stored tr'
          end
      | _ => stored tr'
      end
  end.

End Obs.
Import Obs.

(* ===================================================================== *)
(** ** The specification's side *)
(* ===================================================================== *)

Module Spec.

(** *** The prompt (section 4.5) *)

Definition system_instruction : string :=
  "You are a helpful assistant. Answer the question using ONLY the provided context."
  ++ LF ++
  "If the answer is not found in the context, state that clearly and do not make up information.".

Definition closing_instruction : string :=
  "Answer with citations (e.g., [1], [2]):".

Definition blank_line : string := LF ++ LF.

(** A context item behind its bracketed index. *)
Definition labelled (i : nat) (c : string) : string :=
  "[" ++ string_of_nat i ++ "] " ++ c.

(** The items from index [k] on, a blank line between two of them. *)
Fixpoint context_block (k : nat) (context : list string) : string :=
  match context with
  | [] => EmptyString
  | c :: rest =>
      labelled k c ++
      match rest with
      | [] => EmptyString
      | _ :: _ => blank_line ++ context_block (S k) rest
      end
  end.

Definition prompt_layout (question : string) (context : list string) : string :=
  system_instruction ++ blank_line ++
  "Question: " ++ question ++ blank_line ++
  "Context:" ++ LF ++ context_block 1 context ++ blank_line ++
  closing_instruction.

(** *** Retrieval (section 4.4) *)

(** The texts of the matches whose metadata holds a non-empty string under
    [text], in the order of the matches. *)
Fixpoint kept_texts (matches : list scored_match) : list string :=
  match matches with
  | [] => []
  | m :: ms =>
      match match_metadata m with
      | Some o =>
          match get o "text" with
          | VString EmptyString => kept_texts ms
          | VString s => s :: kept_texts ms
          | _ => kept_texts ms
          end
      | None => kept_texts ms
      end
  end.

(** A run of the retriever on [question]: it either returns what the five
    calls below yield, at most three texts, or it throws the error of the
    call that failed. *)
Definition retrieval (env : environment) (question : string)
  (o : outcome (list string)) (tr : trace) : Prop :=
  match o with
  | Returned texts =>
      exists queryVector matches,
        tr = [ Ev (NewEmbeddings (embeddings env)) (inr tt);
               Ev (EmbedQuery (embeddings env) question) (inr queryVector);
               Ev (NewPinecone (PINECONE_API_KEY env)) (inr tt);
               Ev (PineconeIndex PINECONE_INDEX_NAME) (inr tt);
               Ev (Query PINECONE_INDEX_NAME
                     {| query_vector := queryVector;
                        topK := 3;
                        includeMetadata := true |}) (inr matches) ]
        /\ texts = kept_texts matches
        /\ Forall (fun t => t <> EmptyString) texts
        /\ (List.length texts <= List.length matches)%nat
        /\ (List.length texts <= 3)%nat
  | Thrown e => last_failure tr = Some e
  end.

(** *** Batched upsert (section 4.3) *)

(** The consecutive batches of [records] from position [i] on. *)
Equations? batches (records : list record) (i : nat) : list (list record)
  by wf (List.length records - i) lt :=
batches records i with lt_dec i (List.length records) => {
  | left _ => slice i (i + batchSize) records :: batches records (i + batchSize);
  | right _ => [] }.
Proof. unfold batchSize. lia. Qed.

(** *** Record ids (section 3) *)

Definition is_digit (c : ascii) : bool :=
  match c with
  | "0" | "1" | "2" | "3" | "4" | "5" | "6" | "7" | "8" | "9" => true
  | _ => false
  end%char.

Fixpoint digits_only (s : string) : Prop :=
  match s with
  | EmptyString => True
  | String c s' => is_digit c = true /\ digits_only s'
  end.

(** *** Validation (section 4.6) *)

Definition required_message : string := "Document text is required.".
Definition not_a_string_message : string := "Document text must be a string.".
Definition too_long_message : string :=
  "Document text exceeds maximum length of 500,000 characters.".

Definition client_error (msg : string) : response :=
  {| status := 400; json := Failure msg None None |}.

End Spec.
Import Spec.

(* ===================================================================== *)
(** ** Start-up *)
(* ===================================================================== *)

Module Startup.

(** The variables read from [process.env]; [None] is an unset variable. *)
Record process_env : Type :=
  { env_OPENAI_API_KEY : option string;
    env_PINECONE_API_KEY : option string;
    env_GEMINI_API_KEY : option string;
    env_NODE_ENV : option string }.

(** [!x] is [negb (is_set x)] for an environment variable. *)
Definition is_set (x : option string) : bool :=
  match x with
  | Some (String _ _) => true
  | _ => false
  end.

(** [x || d] *)
Definition or_else (x : option string) (d : string) : string :=
  match x with
  | Some (String c s) => String c s
  | _ => d
  end.

(** The configuration block: [None] is [process.exit(1)], otherwise what
    the pipeline and the handlers go on with.  [PORT] is left out: only
    [app.listen] reads it. *)
Definition start_up (pe : process_env) : option environment :=
  if negb (is_set (env_OPENAI_API_KEY pe))
     || negb (is_set (env_PINECONE_API_KEY pe))
  then None
  else Some {| PINECONE_API_KEY := or_else (env_PINECONE_API_KEY pe) EmptyString;
               GEMINI_API_KEY := env_GEMINI_API_KEY pe;
               NODE_ENV := or_else (env_NODE_ENV pe) "development" |}.

End Startup.
Import Startup.

(* ===================================================================== *)
(** ** The TypeScript draft of the retrieval step *)
(* ===================================================================== *)

Module Draft.

(** [searchResults.matches.map(match => match.metadata?.text || "")] *)
Definition relevantChunks (matches : list scored_match) : list value :=
  map (fun m => if truthy (match_text m) then match_text m
                else VString EmptyString)
    matches.

End Draft.

(* ===================================================================== *)
(** ** More readings of a trace *)
(* ===================================================================== *)

Module Parties.

(** Whom a call goes to. *)
Inductive party : Type :=
| Clock
| Chunker
| Embedder
| Store
| Model.

Definition party_of (ev : event) : party :=
  match ev with
  | Ev DateNow _ | Ev RandomSuffix _ | Ev IsoTimestamp _ => Clock
  | Ev (NewSplitter _) _ | Ev (SplitText _ _) _ => Chunker
  | Ev (NewEmbeddings _) _ | Ev (EmbedDocuments _ _) _
  | Ev (EmbedQuery _ _) _ => Embedder
  | Ev (NewPinecone _) _ | Ev (PineconeIndex _) _ | Ev (Upsert _ _) _
  | Ev (Query _ _) _ => Store
  | Ev (NewGoogleGenAI _) _ | Ev (GenerateContent _) _ => Model
  end.

Definition party_eqb (a b : party) : bool :=
  match a, b with
  | Clock, Clock | Chunker, Chunker | Embedder, Embedder
  | Store, Store | Model, Model => true
  | _, _ => false
  end.

(** The calls of a trace that go to [p]. *)
Definition calls_to (p : party) (tr : trace) : trace :=
  filter (fun ev => party_eqb (party_of ev) p) tr.

(** The chunks every successful split returned, in order. *)
Fixpoint split_chunks (tr : trace) : list (list string) :=
  match tr with
  | [] => []
  | Ev op r :: tr' =>
      match op in ext R return R -> list (list string) with
      | SplitText _ _ =>
          fun r => match r with
                   | inr chunks => chunks :: split_chunks tr'
                   | inl _ => split_chunks tr'
                   end
      | _ => fun _ => split_chunks tr'
      end r
  end.

(** The texts handed to the splitter, in order. *)
Fixpoint split_texts (tr : trace) : list string :=
  match tr with
  | [] => []
  | Ev (SplitText _ t) _ :: tr' => t :: split_texts tr'
  | _ :: tr' => split_texts tr'
  end.

(** The searches sent to the index, in order. *)
Fixpoint queries (tr : trace) : list query_options :=
  match tr with
  | [] => []
  | Ev (Query _ q) _ :: tr' => q :: queries tr'
  | _ :: tr' => queries tr'
  end.

(** The keys the embeddings client was constructed with. *)
Fixpoint embeddings_keys (tr : trace) : list (option string) :=
  match tr with
  | [] => []
  | Ev (NewEmbeddings o) _ :: tr' => embeddings_apiKey o :: embeddings_keys tr'
  | _ :: tr' => embeddings_keys tr'
  end.

(** The answers the language model gave, in order. *)
Fixpoint completions (tr : trace) : list string :=
  match tr with
  | [] => []
  | Ev op r :: tr' =>
      match op in ext R return R -> list string with
      | GenerateContent _ =>
          fun r => match r with
                   | inr answer => answer :: completions tr'
                   | inl _ => completions tr'
                   end
      | _ => fun _ => completions tr'
      end r
  end.

(** The matches every successful search returned, in order. *)
Fixpoint query_results (tr : trace) : list (list scored_match) :=
  match tr with
  | [] => []
  | Ev op r :: tr' =>
      match op in ext R return R -> list (list scored_match) with
      | Query _ _ =>
          fun r => match r with
                   | inr matches => matches :: query_results tr'
                   | inl _ => query_results tr'
                   end
      | _ => fun _ => query_results tr'
      end r
  end.

(** The questions handed to [embedQuery], in order. *)
Fixpoint embedded_questions (tr : trace) : list string :=
  match tr with
  | [] => []
  | Ev (EmbedQuery _ q) _ :: tr' => q :: embedded_questions tr'
  | _ :: tr' => embedded_questions tr'
  end.

(** The texts of records. *)
Definition texts_of (rs : list record) : list string :=
  map (fun r => text (metadata r)) rs.

(** What the index handler did between its two readings [t0] and [t1] of
    the clock on a valid text [s]: the calls [trp] and the response. *)
Definition indexing (env : environment) (s : string) (t0 t1 : Z)
  (resp : response) (trp : trace) : Prop :=
  (exists r trp', trp = Ev (NewSplitter splitter) r :: trp')
  /\ Forall (fun ev => party_of ev <> Model) trp
  /\ queries trp = []
  /\ (forall t, In t (split_texts trp) -> t = s)
  /\ Forall (fun o => o = splitter) (splitter_uses trp)
  /\ (forall k, In k (embeddings_keys trp) -> k = GEMINI_API_KEY env)
  /\ (exists k,
        texts_of (List.concat (stored trp))
        = firstn k (List.concat (split_chunks trp)))
  /\ ((exists e,
         resp = {| status := 500;
                   json := Failure "Failed to index document. Please try again."
                             (details_of env e) (Some (t1 - t0)%Z) |}
         /\ (last_failure trp = Some e
             \/ (In e [ Error "Document chunking resulted in zero chunks";
                        Error "Failed to generate valid embeddings - empty vectors returned";
                        Error "Mismatch between chunks and vectors length" ]
                 /\ submitted trp = [])))
      \/ (exists chunks vectors tr3,
            resp = {| status := 200;
                      json := Indexed
                                ("Document successfully indexed with "
                                 ++ string_of_nat (List.length chunks)
                                 ++ " chunks.")
                                (List.length chunks) (List.length chunks)
                                (t1 - t0)%Z |}
            /\ trp = ([ Ev (NewSplitter splitter) (inr tt);
                        Ev (SplitText splitter s) (inr chunks) ]
                      ++ [ Ev (NewEmbeddings (embeddings env)) (inr tt);
                           Ev (EmbedDocuments (embeddings env) chunks)
                             (inr vectors) ]
                      ++ tr3)%list
            /\ chunks <> []
            /\ List.length vectors = List.length chunks
            /\ Forall (fun ev => party_of ev = Store \/ party_of ev = Clock) tr3
            /\ texts_of (List.concat (stored tr3)) = chunks
            /\ map values (List.concat (stored tr3)) = map Some vectors)).

(** What the answer handler did between its two readings [t0] and [t1]
    of the clock on a valid question [q]: the calls [trp] and the
    response. *)
Definition answering (env : environment) (q : string) (t0 t1 : Z)
  (resp : response) (trp : trace) : Prop :=
  submitted trp = []
  /\ Forall (fun ev => party_of ev <> Chunker) trp
  /\ Forall (fun ev => party_of ev <> Clock) trp
  /\ Forall (fun o => topK o = 3%Z /\ includeMetadata o = true) (queries trp)
  /\ (List.length (queries trp) <= 1)%nat
  /\ (forall k, In k (embeddings_keys trp) -> k = GEMINI_API_KEY env)
  /\ ((exists e,
         resp = {| status := 500;
                   json := Failure
                             "Failed to answer the question. Please try again."
                             (details_of env e) (Some (t1 - t0)%Z) |}
         /\ last_failure trp = Some e
         /\ completions trp = []
         /\ (prompts trp = []
             \/ exists matches,
                  query_results trp = [matches]
                  /\ kept_texts matches <> []
                  /\ prompts trp = [prompt q (kept_texts matches)]))
      \/ (exists matches,
            query_results trp = [matches]
            /\ kept_texts matches = []
            /\ resp = {| status := 200;
                         json := Answered not_found_answer 0 (t1 - t0)%Z |}
            /\ prompts trp = []
            /\ calls_to Model trp = [])
      \/ (exists matches answer,
            query_results trp = [matches]
            /\ kept_texts matches <> []
            /\ resp = {| status := 200;
                         json := Answered answer
                                   (List.length (kept_texts matches))
                                   (t1 - t0)%Z |}
            /\ prompts trp = [prompt q (kept_texts matches)]
            /\ completions trp = [answer]
            /\ List.length (calls_to Model trp) = 2%nat)).

End Parties.
Import Parties.

(* ===================================================================== *)
(** ** What the libraries promise, and what the pipeline makes of it *)
(* ===================================================================== *)

Module Contracts.

(** Modelled from the spec: the search of the vector store, whose code is
    not in the repository, returns up to [topK] matches (section 4.3).  A
    world honours this when no search it answers returns more. *)
Definition honours_topK {W : Type} (world : oracle W) : Prop :=
  forall index q w,
    match fst (world _ (Query index q) w) with
    | inr matches => (List.length matches <= Z.to_nat (topK q))%nat
    | inl _ => True
    end.

(** Modelled from the spec: the guard of the chunker's configuration
    (section 8: with [chunkOverlap >= chunkSize] the configuration must be
    rejected).  It is not in the repository: [processDocument] leaves it
    to the constructor of the splitter library.  A world has the guard
    when that constructor fails on every such configuration. *)
Definition guards_overlap {W : Type} (world : oracle W) : Prop :=
  forall o w,
    (chunkOverlap o >= chunkSize o)%Z ->
    exists e, fst (world _ (NewSplitter o) w) = inl e.

(** A run that throws without having handed any text to [splitText]. *)
Definition rejected_before_splitting {A} (o : outcome A) (tr : trace) : Prop :=
  (exists e, o = Thrown e) /\ split_texts tr = [].

(** What a run of [storeInPinecone] on as many chunks as vectors did to
    the index (section 4.3).  Either a client call failed and no batch was
    handed over; or the records were built from the chunks and the
    vectors, cut into consecutive batches of 1 to 100, and the batches
    were handed to [index.upsert] one after the other, each acknowledged
    before the next: all of them when the run returns the number of
    records, and the first [k + 1] with the first [k] acknowledged, that
    is the first [100 k] records, when the run throws. *)
Definition batched_upsert (chunks : list string) (vectors : list vector)
  (o : outcome nat) (tr : trace) : Prop :=
  (submitted tr = []
   /\ exists e, o = Thrown e /\ last_failure tr = Some e)
  \/ exists records,
       texts_of records = chunks
       /\ map values records = map Some vectors
       /\ List.concat (batches records 0) = records
       /\ Forall (fun b => (1 <= List.length b <= 100)%nat)
            (batches records 0)
       /\ (forall j b,
             nth_error (batches records 0) j = Some b ->
             b = slice (j * 100) (j * 100 + 100) records)
       /\ List.length (calls_to Store tr)
          = (2 + List.length (submitted tr))%nat
       /\ exists k,
            stored tr = firstn k (batches records 0)
            /\ List.concat (stored tr) = firstn (k * 100) records
            /\ match o with
               | Returned n =>
                   n = List.length records
                   /\ submitted tr = batches records 0
                   /\ stored tr = batches records 0
               | Thrown e =>
                   submitted tr = firstn (S k) (batches records 0)
                   /\ (k < List.length (batches records 0))%nat
                   /\ last_failure tr = Some e
               end.

End Contracts.
Import Contracts.

(* ===================================================================== *)
(** ** More scripted worlds *)
(* ===================================================================== *)

Module Script2.

(** A splitter that cuts at every space and an embedder that returns one
    vector whatever the number of chunks. *)
Definition short_embedder : script :=
  {| split := fun _ _ => inr ["A cat"; "sat"];
     embed_documents := fun _ => inr [[one]];
     embed_query := embed_query plain;
     upsert_fails_at := None;
     search := search plain;
     complete := complete plain |}.

(** An embedder whose later vectors are empty. *)
Definition ragged_embedder : script :=
  {| split := split short_embedder;
     embed_documents := fun _ => inr [[one]; []; [one; one]];
     embed_query := embed_query plain;
     upsert_fails_at := None;
     search := search plain;
     complete := complete plain |}.

(** A process environment with every key but Gemini's. *)
Definition no_gemini : process_env :=
  {| env_OPENAI_API_KEY := Some "sk-key";
     env_PINECONE_API_KEY := Some "pc-key";
     env_GEMINI_API_KEY := None;
     env_NODE_ENV := None |}.

(** A store that holds four chunks, one of them without a text, and
    returns the first [topK] of them. *)
Definition stocked : script :=
  {| split := split plain;
     embed_documents := embed_documents plain;
     embed_query := embed_query plain;
     upsert_fails_at := None;
     search := fun q =>
       inr (firstn (Z.to_nat (topK q))
              [ {| match_id := "chunk_0";
                   match_score := one;
                   match_metadata :=
                     Some [("text", VString "A cat sat on a mat.")] |};
                {| match_id := "chunk_1";
                   match_score := one;
                   match_metadata := None |};
                {| match_id := "chunk_2";
                   match_score := one;
                   match_metadata :=
                     Some [("text", VString "The mat was red.")] |};
                {| match_id := "chunk_3";
                   match_score := one;
                   match_metadata :=
                     Some [("text", VString "Dogs bark.")] |} ]);
     complete := complete plain |}.

(** Options the splitter library turns down. *)
Definition too_much_overlap : splitter_options :=
  {| chunkSize := 100; chunkOverlap := 100 |}.

Definition production_env : environment :=
  {| PINECONE_API_KEY := "pc-key";
     GEMINI_API_KEY := Some "g-key";
     NODE_ENV := "production" |}.

End Script2.
Import Script2.

(* ===================================================================== *)
(** ** Laws of runs *)
(* ===================================================================== *)

Section RunLaws.

Context {W : Type} (world : oracle W).

Lemma run_bind {A B} (p : prog A) (f : A -> prog B) (w : W) :
  run world (bind p f) w =
  let '(o, tr, w1) := run world p w in
  match o with
  | Returned a =>
      let '(o2, tr2, w2) := run world (f a) w1 in (o2, tr ++ tr2, w2)%list
  | Thrown e => (Thrown e, tr, w1)
  end.
Proof.
  revert w. induction p as [a | e | R op k IH]; intro w; simpl.
  - destruct (run world (f a) w) as [[o2 tr2] w2]. reflexivity.
  - reflexivity.
  - destruct (world R op w) as [r w1]. rewrite IH.
    destruct (run world (k r) w1) as [[o tr] w2].
    destruct o as [a | e]; [| reflexivity].
    destruct (run world (f a) w2) as [[o2 tr2] w3]. reflexivity.
Qed.

Lemma run_try_catch {A} (p : prog A) (h : error -> prog A) (w : W) :
  run world (try_catch p h) w =
  let '(o, tr, w1) := run world p w in
  match o with
  | Returned a => (Returned a, tr, w1)
  | Thrown e =>
      let '(o2, tr2, w2) := run world (h e) w1 in (o2, tr ++ tr2, w2)%list
  end.
Proof.
  revert w. induction p as [a | e | R op k IH]; intro w; simpl.
  - reflexivity.
  - destruct (run world (h e) w) as [[o2 tr2] w2]. reflexivity.
  - destruct (world R op w) as [r w1]. rewrite IH.
    destruct (run world (k r) w1) as [[o tr] w2].
    destruct o as [a | e]; [reflexivity |].
    destruct (run world (h e) w2) as [[o2 tr2] w3]. reflexivity.
Qed.

End RunLaws.

(** One step of a run: name the world's answer to the next call. *)
Ltac step :=
  match goal with
  | |- context [?world ?R ?op ?w] =>
      match type of op with
      | ext _ =>
          let r := fresh "r" in
          let w' := fresh "w" in
          destruct (world R op w) as [r w'] eqn:?; simpl
      end
  end.

(** The same, splitting a fallible answer into its two cases. *)
Ltac step_await :=
  match goal with
  | |- context [?world ?R ?op ?w] =>
      match type of op with
      | ext (error + _)%type =>
          let e := fresh "e" in
          let x := fresh "x" in
          let w' := fresh "w" in
          destruct (world R op w) as [[e | x] w'] eqn:?; simpl
      end
  end.

(* ===================================================================== *)
(** ** Strings *)
(* ===================================================================== *)

Lemma append_assoc (a b c : string) : (a ++ b) ++ c = a ++ b ++ c.
Proof. induction a as [| ch a IH]; simpl; [reflexivity | now rewrite IH]. Qed.

Lemma append_nil_r (a : string) : a ++ EmptyString = a.
Proof. induction a as [| ch a IH]; simpl; [reflexivity | now rewrite IH]. Qed.

(* ===================================================================== *)
(** ** The prompt *)
(* ===================================================================== *)

Lemma mapi_from_length {A B} (f : A -> nat -> B) (xs : list A) (i : nat) :
  List.length (mapi_from f i xs) = List.length xs.
Proof. revert i. induction xs as [| x xs IH]; intro i; simpl; auto. Qed.

Lemma mapi_from_nth_error {A B} (f : A -> nat -> B) (xs : list A) (i j : nat) :
  nth_error (mapi_from f i xs) j = option_map (fun x => f x (i + j)) (nth_error xs j).
Proof.
  revert i j. induction xs as [| x xs IH]; intros i j.
  - destruct j; reflexivity.
  - destruct j as [| j]; simpl.
    + now rewrite Nat.add_0_r.
    + rewrite IH. now rewrite Nat.add_succ_r.
Qed.

Lemma join_items_block (context : list string) (i : nat) :
  join blank_line
    (mapi_from (fun c i => "[" ++ string_of_nat (i + 1) ++ "] " ++ c) i context)
  = context_block (i + 1) context.
Proof.
  revert i. induction context as [| c rest IH]; intro i; [reflexivity |].
  destruct rest as [| c' rest'].
  - simpl. unfold labelled. now rewrite append_nil_r.
  - change (mapi_from ?f i (c :: ?l)) with (f c i :: mapi_from f (S i) l).
    change (context_block (i + 1) (c :: c' :: rest'))
      with (labelled (i + 1) c ++ blank_line ++ context_block (S (i + 1)) (c' :: rest')).
    change (S (i + 1)) with (S i + 1).
    rewrite <- (IH (S i)).
    reflexivity.
Qed.

Lemma prompt_is_layout (question : string) (context : list string) :
  prompt question context = prompt_layout question context.
Proof.
  unfold prompt, prompt_layout, system_instruction, mapi.
  change (context_block 1 context) with (context_block (0 + 1) context).
  rewrite <- (join_items_block context 0).
  unfold blank_line. rewrite !append_assoc. reflexivity.
Qed.

Lemma labelled_items (context : list string) :
  let items := mapi (fun c i => "[" ++ string_of_nat (i + 1) ++ "] " ++ c) context in
  List.length items = List.length context
  /\ forall i c, nth_error context i = Some c ->
                 nth_error items i = Some (labelled (i + 1) c).
Proof.
  unfold mapi. split.
  - apply mapi_from_length.
  - intros i c Hc. rewrite mapi_from_nth_error, Hc. reflexivity.
Qed.

(** C1. For every question and every non-empty context, the prompt of the
    answer generator is a function of the two alone with the layout of
    section 4.5: the system instruction (use only the context, say so when
    the answer is not in it), the literal question, the context items in
    input order, item [i] (counted from 0) once and behind the bracketed
    index [i + 1], a blank line between two items, and the closing citation
    instruction; and in every world that prompt, and no other, is what the
    generator sends to the language model once the client is constructed. *)
Theorem C1_prompt_layout (env : environment) {W : Type} (world : oracle W)
  (w : W) (question : string) (context : list string) :
  context <> [] ->
  prompt question context = prompt_layout question context
  /\ (exists items,
        List.length items = List.length context
        /\ (forall i c, nth_error context i = Some c ->
                        nth_error items i = Some (labelled (i + 1) c))
        /\ prompt question context =
             system_instruction ++ blank_line ++
             "Question: " ++ question ++ blank_line ++
             "Context:" ++ LF ++ join blank_line items ++ blank_line ++
             closing_instruction)
  /\ let '(o, tr, _) := run world (generateAnswer env question context) w in
     (exists e, tr = [Ev (NewGoogleGenAI (GEMINI_API_KEY env)) (inl e)]
                /\ o = Thrown e)
     \/ prompts tr = [prompt_layout question context].
Proof.
  intro Hne. split; [apply prompt_is_layout |]. split.
  - exists (mapi (fun c i => "[" ++ string_of_nat (i + 1) ++ "] " ++ c) context).
    destruct (labelled_items context) as [Hlen Hnth].
    split; [exact Hlen |]. split; [exact Hnth |].
    unfold prompt, system_instruction, blank_line.
    rewrite !append_assoc. reflexivity.
  - unfold generateAnswer.
    destruct context as [| c cs]; [contradiction |].
    cbn [List.length Nat.eqb]. rewrite <- prompt_is_layout.
    simpl. step_await.
    + left. eauto.
    + step_await; right; reflexivity.
Qed.

Lemma C1_prompt_layout_witness :
  ["A cat sat on a mat."; "A dog sat on a log."] <> []
  /\ prompt "Who sat?" ["A cat sat on a mat."; "A dog sat on a log."]
     = prompt_layout "Who sat?" ["A cat sat on a mat."; "A dog sat on a log."].
Proof.
  split; [discriminate |].
  apply (C1_prompt_layout test_env (answers plain) start "Who sat?"
           ["A cat sat on a mat."; "A dog sat on a log."]).
  discriminate.
Defined.

(** The second end-to-end prompt of section 8, letter by letter. *)
Example prompt_three_items :
  prompt "Q?" ["a"; "b"; "c"] =
  "You are a helpful assistant. Answer the question using ONLY the provided context."
  ++ LF ++
  "If the answer is not found in the context, state that clearly and do not make up information."
  ++ LF ++ LF ++ "Question: Q?" ++ LF ++ LF ++ "Context:" ++ LF ++
  "[1] a" ++ LF ++ LF ++ "[2] b" ++ LF ++ LF ++ "[3] c" ++ LF ++ LF ++
  "Answer with citations (e.g., [1], [2]):".
Proof. reflexivity. Qed.

(* ===================================================================== *)
(** ** The answer generator's guard *)
(* ===================================================================== *)

(** C8. With an empty context the answer generator throws its
    no-context error in every world and calls nothing, the language model
    included; with a non-empty context it goes on to the language-model
    client, and an error it then throws is the one of a call that failed,
    not the guard's. *)
Theorem C8_no_context (env : environment) {W : Type} (world : oracle W)
  (w : W) (question : string) :
  run world (generateAnswer env question []) w
  = (Thrown (Error "No context available for answer generation"), [], w)
  /\ forall context, context <> [] ->
       let '(o, tr, _) := run world (generateAnswer env question context) w in
       (exists r tr', tr = Ev (NewGoogleGenAI (GEMINI_API_KEY env)) r :: tr')
       /\ forall e, o = Thrown e -> last_failure tr = Some e.
Proof.
  split; [reflexivity |].
  intros context Hne. unfold generateAnswer.
  destruct context as [| c cs]; [contradiction |].
  cbn [List.length Nat.eqb]. simpl. step_await.
  - split; [eauto |]. intros e0 H. inversion H. reflexivity.
  - step_await; (split; [eauto |]); intros e0 H; inversion H. reflexivity.
Qed.

Lemma C8_no_context_witness :
  ["A cat sat on a mat."] <> []
  /\ let '(o, tr, _) :=
       run (answers plain)
         (generateAnswer test_env "Who sat?" ["A cat sat on a mat."]) start in
     (exists r tr', tr = Ev (NewGoogleGenAI (GEMINI_API_KEY test_env)) r :: tr')
     /\ forall e, o = Thrown e -> last_failure tr = Some e.
Proof.
  split; [discriminate |].
  apply (proj2 (C8_no_context test_env (answers plain) start "Who sat?")).
  discriminate.
Defined.

(* ===================================================================== *)
(** ** The chunker *)
(* ===================================================================== *)

Lemma not_a_text_string (s : string) :
  s <> EmptyString -> not_a_text (VString s) = false.
Proof.
  intro H. unfold not_a_text. simpl.
  apply String.eqb_neq in H. rewrite H. reflexivity.
Qed.

(** C4. On a non-empty text the chunker, in every world, either returns
    the chunks of the split, at least one and in the split's order, or
    throws: the error of the splitter call that failed, or its own
    zero-chunks error when the split of the non-empty text is empty.  In
    the index handler that error ends the request as a server error (500,
    not a 400) and neither the embedder nor the store is called. *)
Theorem C4_chunker (env : environment) {W : Type} (world : oracle W)
  (w : W) (s : string) :
  s <> EmptyString ->
  (let '(o, tr, _) := run world (processDocument (VString s)) w in
   match o with
   | Returned chunks =>
       (1 <= List.length chunks)%nat
       /\ tr = [ Ev (NewSplitter splitter) (inr tt);
                 Ev (SplitText splitter s) (inr chunks) ]
   | Thrown e =>
       last_failure tr = Some e
       \/ (e = Error "Document chunking resulted in zero chunks"
           /\ tr = [ Ev (NewSplitter splitter) (inr tt);
                     Ev (SplitText splitter s) (inr []) ])
   end)
  /\ (forall w1 w2,
        world _ (NewSplitter splitter) w = (inr tt, w1) ->
        world _ (SplitText splitter s) w1 = (inr [], w2) ->
        run world (processDocument (VString s)) w
        = (Thrown (Error "Document chunking resulted in zero chunks"),
           [ Ev (NewSplitter splitter) (inr tt);
             Ev (SplitText splitter s) (inr []) ], w2))
  /\ (forall req_body t0 t1 w0 w1 w2 w3,
        get req_body "documentText" = VString s ->
        (strlen s <= 500000)%Z ->
        world _ DateNow w = (t0, w0) ->
        world _ (NewSplitter splitter) w0 = (inr tt, w1) ->
        world _ (SplitText splitter s) w1 = (inr [], w2) ->
        world _ DateNow w2 = (t1, w3) ->
        run world (index_document env req_body) w
        = (Returned
             {| status := 500;
                json := Failure "Failed to index document. Please try again."
                          (details_of env
                             (Error "Document chunking resulted in zero chunks"))
                          (Some (t1 - t0)%Z) |},
           [ Ev DateNow t0;
             Ev (NewSplitter splitter) (inr tt);
             Ev (SplitText splitter s) (inr []);
             Ev DateNow t1 ], w3)).
Proof.
  intro Hne. pose proof (not_a_text_string s Hne) as Hguard.
  split; [| split].
  - unfold processDocument, processDocument_with. rewrite Hguard. simpl.
    step_await; [left; reflexivity |].
    step_await; [left; reflexivity |].
    destruct x as []. destruct x0 as [| c cs]; simpl.
    + right. split; reflexivity.
    + split; [lia | reflexivity].
  - intros w1 w2 H1 H2.
    unfold processDocument, processDocument_with. rewrite Hguard. simpl.
    rewrite H1. simpl. rewrite H2. reflexivity.
  - intros req_body t0 t1 w0 w1 w2 w3 Hget Hlen H0 H1 H2 H3.
    assert (Hgt : (strlen s >? 500000)%Z = false)
      by (rewrite Z.gtb_ltb; apply Z.ltb_ge; lia).
    apply String.eqb_neq in Hne.
    unfold index_document. rewrite Hget.
    cbn [truthy typeof as_string]. rewrite Hne, Hgt.
    unfold processDocument, processDocument_with. rewrite Hguard. simpl.
    rewrite H0. simpl. rewrite H1. simpl. rewrite H2. simpl.
    rewrite H3. reflexivity.
Qed.

Lemma C4_chunker_witness :
  "   " <> EmptyString
  /\ run (answers blank)
       (index_document test_env [("documentText", VString "   ")]) start
     = (Returned
          {| status := 500;
             json := Failure "Failed to index document. Please try again."
                       (Some "Document chunking resulted in zero chunks")
                       (Some 1%Z) |},
        [ Ev DateNow 1000%Z;
          Ev (NewSplitter splitter) (inr tt);
          Ev (SplitText splitter "   ") (inr []);
          Ev DateNow 1001%Z ], (1002%Z, 0%nat)).
Proof.
  split; [discriminate |].
  apply (proj2 (proj2 (C4_chunker test_env (answers blank) start "   "
                         ltac:(discriminate)))
           [("documentText", VString "   ")] 1000%Z 1001%Z
           (1001%Z, 0%nat) (1001%Z, 0%nat) (1001%Z, 0%nat) (1002%Z, 0%nat));
    try reflexivity.
  vm_compute. discriminate.
Defined.

(* ===================================================================== *)
(** ** Validation in the index handler *)
(* ===================================================================== *)

(** The three steps after validation either respond 200 or leave the error
    to the handler's [catch], which responds 500. *)
Lemma index_pipeline_status (env : environment) {W : Type} (world : oracle W)
  (w : W) (startTime : Z) (documentText : value)
  (h : error -> prog response) :
  (forall e w', exists tr w'' resp,
      run world (h e) w' = (Returned resp, tr, w'') /\ status resp = 500%Z) ->
  let '(o, _, _) :=
    run world
      (try_catch
         (chunks <- processDocument documentText ;;
          vectors <- generateEmbeddings env chunks ;;
          recordCount <- storeInPinecone env chunks vectors ;;
          now <- ask DateNow ;;
          Ret {| status := 200;
                 json := Indexed
                           ("Document successfully indexed with "
                            ++ string_of_nat (List.length chunks) ++ " chunks.")
                           (List.length chunks) recordCount
                           (now - startTime)%Z |})
         h) w in
  exists resp, o = Returned resp /\ status resp <> 400%Z.
Proof.
  intro Hh.
  assert (Hcatch : forall e tr w',
             let '(o, _, _) :=
               (let '(o2, tr2, w2) := run world (h e) w' in
                (o2, (tr ++ tr2)%list, w2)) in
             exists resp, o = Returned resp /\ status resp <> 400%Z).
  { intros e tr w'. destruct (Hh e w') as (tr2 & w2 & resp & Hrun & Hst).
    rewrite Hrun. exists resp. split; [reflexivity | rewrite Hst; discriminate]. }
  rewrite run_try_catch, run_bind.
  destruct (run world (processDocument documentText) w) as [[o1 tr1] w1].
  destruct o1 as [chunks | e]; [| apply Hcatch].
  rewrite run_bind.
  destruct (run world (generateEmbeddings env chunks) w1) as [[o2 tr2] w2].
  destruct o2 as [vectors | e]; [| apply Hcatch].
  rewrite run_bind.
  destruct (run world (storeInPinecone env chunks vectors) w2) as [[o3 tr3] w3].
  destruct o3 as [recordCount | e]; [| apply Hcatch].
  simpl. step. eexists. split; [reflexivity | simpl; discriminate].
Qed.

Ltac conjuncts :=
  repeat apply conj; try discriminate; intros;
  try reflexivity; try contradiction; try congruence; try lia.

(** C3. On every request body the index handler answers (it never throws),
    and its answer follows the three checks in their order: a missing or
    falsy [documentText] gets the 400 "required" response whatever else is
    wrong with it; a truthy non-string gets the 400 "must be a string"
    response; a string of more than 500,000 characters gets the 400 "exceeds"
    response; anything else is not answered with a 400.  The three messages
    differ, and a run that ends in a 400 has read the clock and called
    nothing else: no chunker, embedder or vector store. *)
Theorem C3_index_validation (env : environment) {W : Type} (world : oracle W)
  (w : W) (req_body : object) :
  let documentText := get req_body "documentText" in
  let '(o, tr, _) := run world (index_document env req_body) w in
  exists resp,
    o = Returned resp
    /\ (truthy documentText = false -> resp = client_error required_message)
    /\ (truthy documentText = true -> typeof documentText <> "string" ->
        resp = client_error not_a_string_message)
    /\ (truthy documentText = true -> typeof documentText = "string" ->
        (strlen (as_string documentText) > 500000)%Z ->
        resp = client_error too_long_message)
    /\ (truthy documentText = true -> typeof documentText = "string" ->
        (strlen (as_string documentText) <= 500000)%Z ->
        status resp <> 400%Z)
    /\ (status resp = 400%Z -> existsb downstream tr = false)
    /\ required_message <> not_a_string_message
    /\ required_message <> too_long_message
    /\ not_a_string_message <> too_long_message.
Proof.
  intro documentText. unfold index_document. fold documentText.
  cbn [bind ask run]. step.
  destruct (truthy documentText) eqn:Htruthy; cbn [negb].
  2: { simpl. eexists. split; [reflexivity |].
       conjuncts. }
  destruct (String.eqb (typeof documentText) "string") eqn:Htype; cbn [negb].
  2: { simpl. eexists. split; [reflexivity |].
       apply String.eqb_neq in Htype.
       conjuncts. }
  apply String.eqb_eq in Htype.
  destruct (strlen (as_string documentText) >? 500000)%Z eqn:Hlen.
  - simpl. eexists. split; [reflexivity |].
    rewrite Z.gtb_ltb in Hlen. apply Z.ltb_lt in Hlen.
    conjuncts.
  - rewrite Z.gtb_ltb in Hlen. apply Z.ltb_ge in Hlen.
    match goal with
    | |- context [run world (try_catch ?p ?h) ?w'] =>
        pose proof (index_pipeline_status env world w' r documentText h) as Hp
    end.
    match type of Hp with
    | ?P -> _ => assert (Hh : P)
    end.
    { intros e w'. simpl. step. do 3 eexists. split; reflexivity. }
    specialize (Hp Hh). clear Hh.
    match type of Hp with
    | context [run world ?q ?w1] =>
        match goal with
        | |- context [run world ?p w1] =>
            change (run world p w1) with (run world q w1)
        end
    end.
    match goal with
    | |- context [run world ?p ?w'] =>
        destruct (run world p w') as [[o tr] w2]
    end.
    destruct Hp as (resp & Ho & Hst). subst o.
    exists resp. split; [reflexivity |].
    conjuncts.
Qed.

Lemma C3_index_validation_witness :
  let req_body := [("documentText", VNumber (S754_zero false))] in
  let '(o, tr, _) := run (answers plain) (index_document test_env req_body) start in
  truthy (get req_body "documentText") = false
  /\ o = Returned (client_error required_message)
  /\ tr = [Ev DateNow 1000%Z].
Proof.
  pose proof (C3_index_validation test_env (answers plain) start
                [("documentText", VNumber (S754_zero false))]) as H.
  simpl in H. destruct H as (resp & Ho & Hreq & _).
  simpl. split; [reflexivity |]. split; [| reflexivity].
  rewrite <- (Hreq eq_refl). exact Ho.
Defined.

(** A text of 500,001 characters, and what the index handler answers. *)
Example index_too_long :
  let documentText := N.iter 500001 (String "a") EmptyString in
  run (answers plain)
    (index_document test_env [("documentText", VString documentText)]) start
  = (Returned (client_error too_long_message), [Ev DateNow 1000%Z],
     (1001%Z, 0%nat)).
Proof. vm_compute. reflexivity. Qed.

(** A value that fails two checks gets the answer of the first. *)
Example index_first_failure_wins :
  run (answers plain)
    (index_document test_env [("documentText", VNull)]) start
  = (Returned (client_error required_message), [Ev DateNow 1000%Z],
     (1001%Z, 0%nat))
  /\ run (answers plain)
       (index_document test_env [("documentText", VArray [VString "a"])]) start
     = (Returned (client_error not_a_string_message), [Ev DateNow 1000%Z],
        (1001%Z, 0%nat)).
Proof. split; reflexivity. Qed.

(* ===================================================================== *)
(** ** Empty inputs *)
(* ===================================================================== *)

(** C10. A request whose [documentText] (for the index handler) or
    [question] (for the answer handler) is the empty string fails the
    presence check: the handler answers 400 with its "required" message,
    having read the clock and called nothing else, so the empty input never
    reaches the chunker, the embedder or the retriever. *)
Theorem C10_empty_string_is_absent (env : environment) {W : Type}
  (world : oracle W) (w : W) (req_body : object) :
  (get req_body "documentText" = VString EmptyString ->
   run world (index_document env req_body) w
   = let '(t, w1) := world _ DateNow w in
     (Returned (client_error "Document text is required."),
      [Ev DateNow t], w1))
  /\ (get req_body "question" = VString EmptyString ->
      run world (answer_question env req_body) w
      = let '(t, w1) := world _ DateNow w in
        (Returned (client_error "Question is required."),
         [Ev DateNow t], w1)).
Proof.
  split; intro Hget.
  - unfold index_document. rewrite Hget. simpl. step. reflexivity.
  - unfold answer_question. rewrite Hget. simpl. step. reflexivity.
Qed.

Lemma C10_empty_string_is_absent_witness :
  get [("documentText", VString EmptyString)] "documentText" = VString EmptyString
  /\ run (answers plain)
       (index_document test_env [("documentText", VString EmptyString)]) start
     = (Returned (client_error "Document text is required."),
        [Ev DateNow 1000%Z], (1001%Z, 0%nat)).
Proof.
  split; [reflexivity |].
  apply (proj1 (C10_empty_string_is_absent test_env (answers plain) start
                  [("documentText", VString EmptyString)])).
  reflexivity.
Defined.

(* ===================================================================== *)
(** ** Retrieval *)
(* ===================================================================== *)

Lemma keeps_nonempty_strings (v : value) :
  truthy v && String.eqb (typeof v) "string"
  = match v with
    | VString (String _ _) => true
    | _ => false
    end.
Proof.
  destruct v as [| | b | x | s | l | l]; try reflexivity.
  - destruct b; reflexivity.
  - destruct x; reflexivity.
  - destruct s; reflexivity.
Qed.

Lemma kept_texts_cons (m : scored_match) (ms : list scored_match) :
  kept_texts (m :: ms)
  = match match_text m with
    | VString (String c s) => String c s :: kept_texts ms
    | _ => kept_texts ms
    end.
Proof.
  unfold match_text, get_opt. simpl.
  destruct (match_metadata m) as [o |]; [| reflexivity].
  destruct (get o "text") as [| | | | s | |]; try reflexivity.
  destruct s; reflexivity.
Qed.

Lemma relevantChunks_kept (matches : list scored_match) :
  relevantChunks matches = kept_texts matches.
Proof.
  unfold relevantChunks.
  induction matches as [| m ms IH]; [reflexivity |].
  rewrite kept_texts_cons. cbn [filter]. rewrite keeps_nonempty_strings.
  destruct (match_text m) as [| | | | s | |] eqn:Hm; try exact IH.
  destruct s as [| c s]; [exact IH |].
  cbn [map]. rewrite Hm, IH. reflexivity.
Qed.

Lemma kept_texts_nonempty (matches : list scored_match) :
  Forall (fun t => t <> EmptyString) (kept_texts matches).
Proof.
  induction matches as [| m ms IH]; simpl; [constructor |].
  destruct (match_metadata m) as [o |]; [| exact IH].
  destruct (get o "text"); try exact IH.
  destruct s; [exact IH |]. constructor; [discriminate | exact IH].
Qed.

Lemma kept_texts_length (matches : list scored_match) :
  (List.length (kept_texts matches) <= List.length matches)%nat.
Proof.
  induction matches as [| m ms IH]; simpl; [lia |].
  destruct (match_metadata m) as [o |]; [| lia].
  destruct (get o "text"); try lia.
  destruct s; simpl; lia.
Qed.

(** Matches without metadata, with an empty text or with a text that is
    not a string are dropped. *)
Example retrieval_drops_unusable_matches :
  run (answers no_text) (queryDocument test_env (VString "Who sat?")) start
  = (Returned [],
     [ Ev (NewEmbeddings (embeddings test_env)) (inr tt);
       Ev (EmbedQuery (embeddings test_env) "Who sat?") (inr [one]);
       Ev (NewPinecone "pc-key") (inr tt);
       Ev (PineconeIndex PINECONE_INDEX_NAME) (inr tt);
       Ev (Query PINECONE_INDEX_NAME
             {| query_vector := [one]; topK := 3; includeMetadata := true |})
          (search no_text
             {| query_vector := [one]; topK := 3; includeMetadata := true |}) ],
     start).
Proof. reflexivity. Qed.

(** The retriever never calls the language model. *)
Lemma queryDocument_no_llm (env : environment) {W : Type} (world : oracle W)
  (w : W) (question : value) :
  let '(_, tr, _) := run world (queryDocument env question) w in
  existsb llm_call tr = false.
Proof.
  unfold queryDocument. destruct (not_a_text question); simpl; [reflexivity |].
  repeat (step_await; [reflexivity |]). reflexivity.
Qed.

(* ===================================================================== *)
(** ** The answer handler without context *)
(* ===================================================================== *)

Lemma existsb_snoc_clock (tr : trace) (t : Z) :
  existsb llm_call (tr ++ [Ev DateNow t]) = existsb llm_call tr.
Proof.
  rewrite existsb_app. simpl. now rewrite !orb_false_r.
Qed.

(** C2. On a valid answer request (a non-empty question string of at most
    1,000 characters) whose retrieval returns no chunk, the answer handler
    responds 200 with [success], the canned "not found" answer and
    [chunksRetrieved = 0]; its calls are the clock, the calls of the
    retrieval and the clock again, none of them to the language model. *)
Theorem C2_no_relevant_chunks (env : environment) {W : Type}
  (world : oracle W) (w : W) (req_body : object) (question : string)
  (t0 : Z) (w0 : W) (tr1 : trace) (w1 : W) :
  get req_body "question" = VString question ->
  question <> EmptyString ->
  (strlen question <= 1000)%Z ->
  world _ DateNow w = (t0, w0) ->
  run world (queryDocument env (VString question)) w0 = (Returned [], tr1, w1) ->
  let '(t1, w2) := world _ DateNow w1 in
  let resp := {| status := 200;
                 json := Answered not_found_answer 0 (t1 - t0)%Z |} in
  let tr := (Ev DateNow t0 :: tr1 ++ [Ev DateNow t1])%list in
  run world (answer_question env req_body) w = (Returned resp, tr, w2)
  /\ success (json resp) = true
  /\ existsb llm_call tr = false.
Proof.
  intros Hget Hne Hlen H0 Hq.
  assert (Hgt : (strlen question >? 1000)%Z = false)
    by (rewrite Z.gtb_ltb; apply Z.ltb_ge; lia).
  apply String.eqb_neq in Hne.
  destruct (world Z DateNow w1) as [t1 w2] eqn:H1.
  split; [| split; [reflexivity |]].
  - unfold answer_question. rewrite Hget.
    cbn [truthy typeof as_string]. rewrite Hne, Hgt.
    change (negb ("string" =? "string")) with false. cbn [negb].
    rewrite run_bind. cbn [ask run]. rewrite H0.
    rewrite run_try_catch, run_bind, Hq.
    cbn [List.length Nat.eqb]. rewrite run_bind. cbn [ask run]. rewrite H1.
    reflexivity.
  - pose proof (queryDocument_no_llm env world w0 (VString question)) as Hno.
    rewrite Hq in Hno.
    cbn [existsb llm_call]. rewrite existsb_snoc_clock. exact Hno.
Qed.

Lemma C2_no_relevant_chunks_witness :
  run (answers no_text)
    (answer_question test_env [("question", VString "Who sat?")]) start
  = (Returned {| status := 200;
                 json := Answered not_found_answer 0 1%Z |},
     [ Ev DateNow 1000%Z;
       Ev (NewEmbeddings (embeddings test_env)) (inr tt);
       Ev (EmbedQuery (embeddings test_env) "Who sat?") (inr [one]);
       Ev (NewPinecone "pc-key") (inr tt);
       Ev (PineconeIndex PINECONE_INDEX_NAME) (inr tt);
       Ev (Query PINECONE_INDEX_NAME
             {| query_vector := [one]; topK := 3; includeMetadata := true |})
          (search no_text
             {| query_vector := [one]; topK := 3; includeMetadata := true |});
       Ev DateNow 1001%Z ],
     (1002%Z, 0%nat)).
Proof.
  exact (proj1
    (C2_no_relevant_chunks test_env (answers no_text) start
       [("question", VString "Who sat?")] "Who sat?"
       1000%Z (1001%Z, 0%nat)
       [ Ev (NewEmbeddings (embeddings test_env)) (inr tt);
         Ev (EmbedQuery (embeddings test_env) "Who sat?") (inr [one]);
         Ev (NewPinecone "pc-key") (inr tt);
         Ev (PineconeIndex PINECONE_INDEX_NAME) (inr tt);
         Ev (Query PINECONE_INDEX_NAME
               {| query_vector := [one]; topK := 3; includeMetadata := true |})
            (search no_text
               {| query_vector := [one]; topK := 3; includeMetadata := true |}) ]
       (1001%Z, 0%nat)
       eq_refl
       ltac:(discriminate)
       ltac:(vm_compute; discriminate)
       eq_refl
       eq_refl)).
Defined.

(* ===================================================================== *)
(** ** Batched upsert *)
(* ===================================================================== *)

Lemma batches_step (records : list record) (i : nat) :
  batches records i =
  if lt_dec i (List.length records)
  then slice i (i + batchSize) records :: batches records (i + batchSize)
  else [].
Proof.
  rewrite batches_equation_1.
  destruct (lt_dec i (List.length records)); reflexivity.
Qed.

Lemma upsert_from_step (records : list record) (i : nat) :
  upsert_from records i =
  if lt_dec i (List.length records)
  then Call (Upsert PINECONE_INDEX_NAME (slice i (i + batchSize) records))
         (fun r => match r with
                   | inl e => Throw e
                   | inr _ => upsert_from records (i + batchSize)
                   end)
  else Ret tt.
Proof.
  rewrite upsert_from_equation_1.
  destruct (lt_dec i (List.length records)); reflexivity.
Qed.

Lemma slice_batch (records : list record) (i : nat) :
  slice i (i + batchSize) records = firstn batchSize (skipn i records).
Proof. unfold slice. f_equal. lia. Qed.

Lemma firstn_plus {A} (a b : nat) (l : list A) :
  firstn (a + b) l = (firstn a l ++ firstn b (skipn a l))%list.
Proof.
  revert l. induction a as [| a IH]; intro l; [reflexivity |].
  destruct l as [| x l]; simpl.
  - now rewrite firstn_nil.
  - now rewrite IH.
Qed.

(** The first [k] batches, put end to end, are the first [k * batchSize]
    records. *)
Lemma batches_prefix (records : list record) (k i : nat) :
  List.concat (firstn k (batches records i))
  = firstn (k * batchSize) (skipn i records).
Proof.
  revert i. induction k as [| k IH]; intro i; [reflexivity |].
  rewrite batches_step.
  destruct (lt_dec i (List.length records)) as [Hlt | Hge].
  - cbn [firstn List.concat]. rewrite IH, slice_batch.
    change (S k * batchSize)%nat with (batchSize + k * batchSize)%nat.
    rewrite firstn_plus, skipn_skipn, (Nat.add_comm batchSize i). reflexivity.
  - rewrite (skipn_all2 records) by lia. now rewrite firstn_nil.
Qed.

Lemma batches_concat (records : list record) (i : nat) :
  List.concat (batches records i) = skipn i records.
Proof.
  rewrite <- (firstn_all (batches records i)), batches_prefix.
  apply firstn_all2. rewrite length_skipn.
  remember (List.length records - i)%nat as n eqn:Hn.
  revert i Hn. induction n as [n IH] using lt_wf_ind. intros i Hn.
  rewrite batches_step.
  destruct (lt_dec i (List.length records)) as [Hlt | Hge]; [| simpl; lia].
  cbn [List.length].
  specialize (IH (List.length records - (i + batchSize))%nat).
  unfold batchSize in *.
  assert (Hlt' : (List.length records - (i + 100) < n)%nat) by lia.
  specialize (IH Hlt' (i + 100)%nat eq_refl). lia.
Qed.

Lemma batches_sizes (records : list record) (i : nat) :
  Forall (fun b => (1 <= List.length b <= batchSize)%nat) (batches records i).
Proof.
  remember (List.length records - i)%nat as n eqn:Hn.
  revert i Hn. induction n as [n IH] using lt_wf_ind. intros i Hn.
  rewrite batches_step.
  destruct (lt_dec i (List.length records)) as [Hlt | Hge]; [| constructor].
  constructor.
  - rewrite slice_batch, length_firstn, length_skipn. unfold batchSize. lia.
  - apply (IH (List.length records - (i + batchSize))%nat);
      [unfold batchSize; lia | reflexivity].
Qed.

Lemma batches_nth (records : list record) (j i : nat) (b : list record) :
  nth_error (batches records i) j = Some b ->
  b = slice (i + j * batchSize) (i + j * batchSize + batchSize) records.
Proof.
  revert i. induction j as [| j IH]; intros i H; rewrite batches_step in H;
    destruct (lt_dec i (List.length records)); try discriminate.
  - simpl in H. injection H as <-. f_equal; lia.
  - simpl in H. apply IH in H. subst b. f_equal; lia.
Qed.

(** A run of the loop from [i]: the batches submitted are a prefix of the
    batches from [i]; all of them were acknowledged, but for the last one
    when the run throws. *)
Lemma upsert_from_run {W : Type} (world : oracle W) (records : list record)
  (i : nat) (w : W) :
  let '(o, tr, _) := run world (upsert_from records i) w in
  exists k,
    stored tr = firstn k (batches records i)
    /\ List.length tr = List.length (submitted tr)
    /\ match o with
       | Returned _ =>
           submitted tr = batches records i
           /\ k = List.length (batches records i)
       | Thrown e =>
           submitted tr = firstn (S k) (batches records i)
           /\ (k < List.length (batches records i))%nat
           /\ last_failure tr = Some e
       end.
Proof.
  remember (List.length records - i)%nat as n eqn:Hn.
  revert i w Hn. induction n as [n IH] using lt_wf_ind. intros i w Hn.
  rewrite upsert_from_step, (batches_step records i).
  destruct (lt_dec i (List.length records)) as [Hlt | Hge].
  2: { simpl. exists 0%nat. repeat split. }
  cbn [run]. step_await.
  - exists 0%nat. cbn. repeat split. lia.
  - assert (Hlt' : (List.length records - (i + batchSize) < n)%nat)
      by (unfold batchSize; lia).
    specialize (IH _ Hlt' (i + batchSize)%nat w0 eq_refl).
    destruct (run world (upsert_from records (i + batchSize)) w0)
      as [[o tr] w1].
    destruct IH as (k & Hst & Hlen & Ho).
    exists (S k). cbn [stored submitted failure List.length firstn].
    rewrite Hst, Hlen. split; [reflexivity |]. split; [reflexivity |].
    destruct o as [u | e].
    + destruct Ho as [Hsub Hk]. rewrite Hsub, Hk. split; reflexivity.
    + destruct Ho as (Hsub & Hk & Hfail). rewrite Hsub.
      split; [reflexivity |]. split; [simpl; lia |].
      unfold last_failure in *. cbn [List.rev].
      destruct tr as [| ev tr]; [simpl in Hfail; discriminate |].
      destruct (List.rev (ev :: tr)) as [| ev' tr'] eqn:Hrev.
      * apply (f_equal (@List.length _)) in Hrev.
        rewrite length_rev in Hrev. discriminate.
      * exact Hfail.
Qed.

(** 250 records and a store that fails on the second call: one batch of
    100 stays stored, the third batch is never submitted. *)
Example upsert_fails_on_second_batch :
  let '(o, tr, _) :=
    run (answers (failing_store 1)) (upsert_from sample_records 0) start in
  o = Thrown (Error "upsert failed")
  /\ submitted tr = [firstn 100 sample_records;
                     firstn 100 (skipn 100 sample_records)]
  /\ stored tr = [firstn 100 sample_records].
Proof. vm_compute. repeat split. Qed.

(* ===================================================================== *)
(** ** Record ids *)
(* ===================================================================== *)

Lemma digits_of_uint (d : uint) : digits_only (NilEmpty.string_of_uint d).
Proof. induction d; simpl; auto. Qed.

Lemma digits_of_nat (n : nat) : digits_only (string_of_nat n).
Proof.
  unfold string_of_nat, NilZero.string_of_uint.
  destruct (Nat.to_uint n) eqn:H; try (rewrite <- H; apply digits_of_uint).
  simpl. auto.
Qed.

Lemma string_of_nat_inj (i j : nat) :
  string_of_nat i = string_of_nat j -> i = j.
Proof.
  unfold string_of_nat. intro H.
  assert (Hnn : forall n, Nat.to_uint n <> Nil).
  { intro n. rewrite <- (Unsigned.of_to n) at 1. rewrite Unsigned.to_of.
    apply DecimalFacts.unorm_nonnil. }
  apply Unsigned.to_uint_inj.
  pose proof (NilZero.usu _ (Hnn i)) as Hi.
  pose proof (NilZero.usu _ (Hnn j)) as Hj.
  rewrite H in Hi. congruence.
Qed.

(** A run of digits is closed by the first underscore. *)
Lemma digits_then_underscore (a b r1 r2 : string) :
  digits_only a -> digits_only b ->
  a ++ "_" ++ r1 = b ++ "_" ++ r2 -> a = b.
Proof.
  revert b. induction a as [| c a IH]; intros [| c' b] Ha Hb H; simpl in *.
  - reflexivity.
  - injection H as Hc _. destruct Hb as [Hd _]. subst c'. discriminate.
  - injection H as Hc _. destruct Ha as [Hd _]. subst c. discriminate.
  - injection H as Hc Ht. destruct Ha as [_ Ha]. destruct Hb as [_ Hb].
    f_equal; [exact Hc | exact (IH b Ha Hb Ht)].
Qed.

Lemma id_index_inj (i j : nat) (r1 r2 : string) :
  "chunk_" ++ string_of_nat i ++ "_" ++ r1
  = "chunk_" ++ string_of_nat j ++ "_" ++ r2 ->
  i = j.
Proof.
  intro H. simpl in H. repeat (injection H as H).
  apply string_of_nat_inj.
  exact (digits_then_underscore _ _ _ _ (digits_of_nat i) (digits_of_nat j) H).
Qed.

Section Records.

Context {W : Type} (world : oracle W).

(** The callback of [chunks.map] reads the clock and the random source and
    returns the record of index [i]. *)
Lemma make_record_run (vectors : list vector) (chunk : string) (i : nat) (w : W) :
  exists r tr w',
    run world (make_record vectors chunk i) w = (Returned r, tr, w')
    /\ (exists rest, id r = "chunk_" ++ string_of_nat i ++ "_" ++ rest)
    /\ text (metadata r) = chunk
    /\ values r = nth_error vectors i
    /\ submitted tr = []
    /\ existsb downstream tr = false.
Proof.
  unfold make_record. simpl. step. step. step.
  do 3 eexists. split; [reflexivity |]. simpl.
  split; [eexists; reflexivity |]. repeat split.
Qed.

Lemma submitted_app (tr1 tr2 : trace) :
  submitted (tr1 ++ tr2)%list = (submitted tr1 ++ submitted tr2)%list.
Proof.
  induction tr1 as [| ev tr1 IH]; [reflexivity |].
  destruct ev as [R op r]. destruct op; simpl; rewrite IH; reflexivity.
Qed.

Lemma make_records_run (vectors : list vector) (chunks : list string)
  (i : nat) (w : W) :
  exists rs tr w',
    run world (mapi_from_M (make_record vectors) i chunks) w
    = (Returned rs, tr, w')
    /\ List.length rs = List.length chunks
    /\ (forall j r, nth_error rs j = Some r ->
          exists rest,
            id r = "chunk_" ++ string_of_nat (i + j) ++ "_" ++ rest)
    /\ submitted tr = [].
Proof.
  revert i w. induction chunks as [| c cs IH]; intros i w.
  - do 3 eexists. split; [reflexivity |]. split; [reflexivity |].
    split; [| reflexivity]. intros [| j] r H; discriminate.
  - cbn [mapi_from_M]. rewrite run_bind.
    destruct (make_record_run vectors c i w)
      as (r0 & tr0 & w0 & Hrun0 & Hid0 & _ & _ & Hsub0 & _).
    rewrite Hrun0. rewrite run_bind.
    destruct (IH (S i) w0) as (rs & tr1 & w1 & Hrun1 & Hlen & Hids & Hsub1).
    rewrite Hrun1. cbn [run].
    do 3 eexists. split; [reflexivity |].
    split; [simpl; now rewrite Hlen |].
    split.
    + intros [| j] r H; simpl in H.
      * injection H as <-. now rewrite Nat.add_0_r.
      * rewrite Nat.add_succ_r. apply (Hids j r H).
    + rewrite app_nil_r, submitted_app, Hsub0, Hsub1. reflexivity.
Qed.

Lemma ids_distinct (rs : list record) (i : nat) :
  (forall j r, nth_error rs j = Some r ->
     exists rest, id r = "chunk_" ++ string_of_nat (i + j) ++ "_" ++ rest) ->
  NoDup (map id rs).
Proof.
  intro Hids. apply NoDup_nth_error. intros a b Ha Heq.
  rewrite length_map in Ha. rewrite !nth_error_map in Heq.
  destruct (nth_error rs a) as [ra |] eqn:Hra.
  2: { apply nth_error_None in Hra. lia. }
  destruct (nth_error rs b) as [rb |] eqn:Hrb; [| discriminate].
  simpl in Heq. injection Heq as Heq.
  destruct (Hids a ra Hra) as [resta Hida].
  destruct (Hids b rb Hrb) as [restb Hidb].
  rewrite Hida, Hidb in Heq. apply id_index_inj in Heq. lia.
Qed.

Lemma NoDup_prefix {A} (n : nat) (l : list A) : NoDup l -> NoDup (firstn n l).
Proof.
  intro H. rewrite <- (firstn_skipn n l) in H.
  exact (NoDup_app_remove_r _ _ H).
Qed.

End Records.

Lemma run_await {W : Type} (world : oracle W) {R} (op : ext (error + R)) (w : W) :
  run world (await op) w =
  let '(r, w1) := world _ op w in
  (match r with inl e => Thrown e | inr x => Returned x end, [Ev op r], w1).
Proof.
  unfold await. cbn [run].
  destruct (world _ op w) as [[e | x] w1]; reflexivity.
Qed.

(** C9. In every world the records built for one call of
    [storeInPinecone] are as many as the chunks and carry pairwise distinct
    ids, whatever the clock and the random source answer: the id of the
    record of index [i] starts with [chunk_], the decimal digits of [i] and
    an underscore.  Hence the ids of all the records the call hands to
    [index.upsert], over all its batches, are pairwise distinct. *)
Theorem C9_distinct_ids (env : environment) {W : Type} (world : oracle W)
  (w : W) (chunks : list string) (vectors : list vector) :
  (exists records tr w',
     run world (mapi_M (make_record vectors) chunks) w
     = (Returned records, tr, w')
     /\ List.length records = List.length chunks
     /\ NoDup (map id records))
  /\ let '(_, tr, _) := run world (storeInPinecone env chunks vectors) w in
     NoDup (map id (List.concat (submitted tr))).
Proof.
  split.
  - destruct (make_records_run world vectors chunks 0 w)
      as (rs & tr & w' & Hrun & Hlen & Hids & _).
    exists rs, tr, w'. split; [exact Hrun |]. split; [exact Hlen |].
    exact (ids_distinct rs 0 Hids).
  - unfold storeInPinecone.
    destruct (negb (List.length chunks =? List.length vectors)%nat);
      [simpl; constructor |].
    rewrite run_bind, run_await.
    destruct (world _ (NewPinecone (PINECONE_API_KEY env)) w) as [[e | u] w1];
      [simpl; constructor |].
    rewrite run_bind, run_await.
    destruct (world _ (PineconeIndex PINECONE_INDEX_NAME) w1) as [[e | u'] w2];
      [simpl; constructor |].
    rewrite run_bind. unfold mapi_M.
    destruct (make_records_run world vectors chunks 0 w2)
      as (rs & tr & w3 & Hrun & Hlen & Hids & Hsub).
    rewrite Hrun. rewrite run_bind.
    pose proof (upsert_from_run world rs 0 w3) as Hup.
    destruct (run world (upsert_from rs 0) w3) as [[o tr2] w4].
    destruct Hup as (k & _ & _ & Ho).
    pose proof (ids_distinct rs 0 Hids) as Hnd.
    assert (Hgoal : NoDup (map id (List.concat (submitted tr2)))).
    { destruct o as [u'' | e].
      - destruct Ho as [-> _]. rewrite batches_concat. exact Hnd.
      - destruct Ho as (-> & _ & _). rewrite batches_prefix.
        rewrite skipn_0, <- firstn_map. apply NoDup_prefix. exact Hnd. }
    destruct o as [u'' | e]; cbn [run];
      repeat rewrite submitted_app; rewrite Hsub; simpl;
      try rewrite app_nil_r; exact Hgoal.
Qed.

(** Two chunks that draw the same random suffix still get different ids. *)
Example ids_differ_by_index :
  let '(_, tr, _) :=
    run (answers plain)
      (storeInPinecone test_env ["a"; "b"] [[one]; [one]]) (5%Z, 0%nat) in
  map (map id) (submitted tr)
  = [["chunk_0_5_k3x9q0z1a"; "chunk_1_6_k3x9q0z1a"]].
Proof. vm_compute. reflexivity. Qed.

(* ===================================================================== *)
(** ** Traces of sequenced programs *)
(* ===================================================================== *)

Ltac by_events IH :=
  match goal with
  | ev : event |- _ =>
      destruct ev as [? op ?]; destruct op; simpl; rewrite ?IH; reflexivity
  end.

Lemma prompts_app (tr1 tr2 : trace) :
  prompts (tr1 ++ tr2)%list = (prompts tr1 ++ prompts tr2)%list.
Proof. induction tr1 as [| ev tr1 IH]; [reflexivity | by_events IH]. Qed.

Lemma stored_app (tr1 tr2 : trace) :
  stored (tr1 ++ tr2)%list = (stored tr1 ++ stored tr2)%list.
Proof.
  induction tr1 as [| ev tr1 IH]; [reflexivity |].
  destruct ev as [R op r]. destruct op; simpl; rewrite ?IH; try reflexivity.
  destruct r; simpl; rewrite ?IH; reflexivity.
Qed.

Lemma queries_app (tr1 tr2 : trace) :
  queries (tr1 ++ tr2)%list = (queries tr1 ++ queries tr2)%list.
Proof. induction tr1 as [| ev tr1 IH]; [reflexivity | by_events IH]. Qed.

Lemma splitter_uses_app (tr1 tr2 : trace) :
  splitter_uses (tr1 ++ tr2)%list
  = (splitter_uses tr1 ++ splitter_uses tr2)%list.
Proof. induction tr1 as [| ev tr1 IH]; [reflexivity | by_events IH]. Qed.

Lemma split_texts_app (tr1 tr2 : trace) :
  split_texts (tr1 ++ tr2)%list = (split_texts tr1 ++ split_texts tr2)%list.
Proof. induction tr1 as [| ev tr1 IH]; [reflexivity | by_events IH]. Qed.

Lemma split_chunks_app (tr1 tr2 : trace) :
  split_chunks (tr1 ++ tr2)%list
  = (split_chunks tr1 ++ split_chunks tr2)%list.
Proof.
  induction tr1 as [| ev tr1 IH]; [reflexivity |].
  destruct ev as [R op r]. destruct op; simpl; rewrite ?IH; try reflexivity.
  destruct r; simpl; rewrite ?IH; reflexivity.
Qed.

Lemma embeddings_keys_app (tr1 tr2 : trace) :
  embeddings_keys (tr1 ++ tr2)%list
  = (embeddings_keys tr1 ++ embeddings_keys tr2)%list.
Proof. induction tr1 as [| ev tr1 IH]; [reflexivity | by_events IH]. Qed.

(** A trace without calls to a party shows nothing of that party. *)
Lemma without_store (tr : trace) :
  Forall (fun ev => party_of ev <> Store) tr ->
  submitted tr = [] /\ stored tr = [] /\ queries tr = [].
Proof.
  induction 1 as [| ev tr Hev _ IH]; [repeat split |].
  destruct IH as (H1 & H2 & H3).
  destruct ev as [R op r]; destruct op; simpl in *;
    try (exfalso; apply Hev; reflexivity); repeat split; assumption.
Qed.

Lemma without_model (tr : trace) :
  Forall (fun ev => party_of ev <> Model) tr ->
  prompts tr = [] /\ existsb llm_call tr = false.
Proof.
  induction 1 as [| ev tr Hev _ IH]; [repeat split |].
  destruct IH as (H1 & H2).
  destruct ev as [R op r]; destruct op; simpl in *;
    try (exfalso; apply Hev; reflexivity); repeat split; assumption.
Qed.

Lemma without_chunker (tr : trace) :
  Forall (fun ev => party_of ev <> Chunker) tr ->
  splitter_uses tr = [] /\ split_texts tr = [] /\ split_chunks tr = [].
Proof.
  induction 1 as [| ev tr Hev _ IH]; [repeat split |].
  destruct IH as (H1 & H2 & H3).
  destruct ev as [R op r]; destruct op; simpl in *;
    try (exfalso; apply Hev; reflexivity); repeat split; assumption.
Qed.

Lemma without_embedder (tr : trace) :
  Forall (fun ev => party_of ev <> Embedder) tr -> embeddings_keys tr = [].
Proof.
  induction 1 as [| ev tr Hev _ IH]; [reflexivity |].
  destruct ev as [R op r]; destruct op; simpl in *;
    try (exfalso; apply Hev; reflexivity); assumption.
Qed.

(** Solves [Forall (fun ev => ... party_of ev ...)] on an explicit trace. *)
Ltac parties :=
  repeat (apply Forall_cons; [simpl; auto; try discriminate |]);
  try apply Forall_nil.

(* ===================================================================== *)
(** ** The embedder *)
(* ===================================================================== *)

Lemma generateEmbeddings_run (env : environment) {W : Type}
  (world : oracle W) (w : W) (chunks : list string) :
  let '(o, tr, _) := run world (generateEmbeddings env chunks) w in
  match o with
  | Returned vectors =>
      chunks <> []
      /\ tr = [ Ev (NewEmbeddings (embeddings env)) (inr tt);
                Ev (EmbedDocuments (embeddings env) chunks) (inr vectors) ]
      /\ exists v0 rest, vectors = v0 :: rest /\ v0 <> []
  | Thrown e =>
      (chunks = [] /\ tr = []
       /\ e = Error "Invalid chunks array provided")
      \/ last_failure tr = Some e
      \/ (e = Error "Failed to generate valid embeddings - empty vectors returned"
          /\ exists vectors,
               tr = [ Ev (NewEmbeddings (embeddings env)) (inr tt);
                      Ev (EmbedDocuments (embeddings env) chunks)
                        (inr vectors) ]
               /\ (vectors = [] \/ exists rest, vectors = [] :: rest))
  end.
Proof.
  unfold generateEmbeddings.
  destruct chunks as [| c cs]; [left; repeat split |].
  cbn [List.length Nat.eqb]. simpl.
  step_await; [right; left; reflexivity |].
  step_await; [right; left; reflexivity |].
  destruct x as []. destruct x0 as [| v0 rest]; simpl.
  - right; right. split; [reflexivity |]. eexists. split; [reflexivity |].
    left; reflexivity.
  - destruct v0 as [| x v0]; simpl.
    + right; right. split; [reflexivity |]. eexists. split; [reflexivity |].
      right. eexists; reflexivity.
    + split; [discriminate |]. split; [reflexivity |].
      do 2 eexists. split; [reflexivity | discriminate].
Qed.

(** X1. In every world [generateEmbeddings] returns only what
    [embedDocuments] answered to the chunks it was given, and only when
    the chunks are not empty and the first vector of the answer is not
    empty.  It throws without calling anything on an empty chunk list,
    throws the error of a call that failed, or throws its own
    empty-vectors error when the answer has no vector or an empty first
    vector. *)
Theorem X1_generateEmbeddings_result (env : environment) {W : Type}
  (world : oracle W) (w : W) (chunks : list string) :
  let '(o, tr, _) := run world (generateEmbeddings env chunks) w in
  match o with
  | Returned vectors =>
      chunks <> []
      /\ tr = [ Ev (NewEmbeddings (embeddings env)) (inr tt);
                Ev (EmbedDocuments (embeddings env) chunks) (inr vectors) ]
      /\ exists v0 rest, vectors = v0 :: rest /\ v0 <> []
  | Thrown e =>
      (chunks = [] /\ tr = []
       /\ e = Error "Invalid chunks array provided")
      \/ last_failure tr = Some e
      \/ (e = Error "Failed to generate valid embeddings - empty vectors returned"
          /\ exists vectors,
               tr = [ Ev (NewEmbeddings (embeddings env)) (inr tt);
                      Ev (EmbedDocuments (embeddings env) chunks)
                        (inr vectors) ]
               /\ (vectors = [] \/ exists rest, vectors = [] :: rest))
  end.
Proof.
  unfold generateEmbeddings.
  destruct chunks as [| c cs]; [left; repeat split |].
  cbn [List.length Nat.eqb]. simpl.
  step_await; [right; left; reflexivity |].
  step_await; [right; left; reflexivity |].
  destruct x as []. destruct x0 as [| v0 rest]; simpl.
  - right; right. split; [reflexivity |]. eexists. split; [reflexivity |].
    left; reflexivity.
  - destruct v0 as [| x v0]; simpl.
    + right; right. split; [reflexivity |]. eexists. split; [reflexivity |].
      right. eexists; reflexivity.
    + split; [discriminate |]. split; [reflexivity |].
      do 2 eexists. split; [reflexivity | discriminate].
Qed.


(** X2. [generateEmbeddings] looks at the first vector only: when the
    provider answers a list whose first vector is not empty, that list is
    returned as it is, whatever the number of vectors (it need not be the
    number of chunks) and whatever the other vectors are (they may be
    empty). *)
Theorem X2_generateEmbeddings_first_vector_only (env : environment)
  {W : Type} (world : oracle W) (w w1 w2 : W) (chunks : list string)
  (v0 : vector) (rest : list vector) :
  chunks <> [] ->
  v0 <> [] ->
  world _ (NewEmbeddings (embeddings env)) w = (inr tt, w1) ->
  world _ (EmbedDocuments (embeddings env) chunks) w1 = (inr (v0 :: rest), w2) ->
  run world (generateEmbeddings env chunks) w
  = (Returned (v0 :: rest),
     [ Ev (NewEmbeddings (embeddings env)) (inr tt);
       Ev (EmbedDocuments (embeddings env) chunks) (inr (v0 :: rest)) ],
     w2).
Proof.
  intros Hc Hv H1 H2. unfold generateEmbeddings.
  destruct chunks as [| c cs]; [contradiction |].
  destruct v0 as [| x v0]; [contradiction |].
  cbn [List.length Nat.eqb]. simpl. rewrite H1. simpl. rewrite H2. reflexivity.
Qed.

Lemma X2_generateEmbeddings_first_vector_only_witness :
  run (answers ragged_embedder)
    (generateEmbeddings test_env ["A cat"; "sat"]) start
  = (Returned [[one]; []; [one; one]],
     [ Ev (NewEmbeddings (embeddings test_env)) (inr tt);
       Ev (EmbedDocuments (embeddings test_env) ["A cat"; "sat"])
         (inr [[one]; []; [one; one]]) ],
     start).
Proof.
  apply (X2_generateEmbeddings_first_vector_only test_env
           (answers ragged_embedder) start start start
           ["A cat"; "sat"] [one] [[]; [one; one]]);
    try discriminate; reflexivity.
Defined.

Lemma generateEmbeddings_parties (env : environment) {W : Type}
  (world : oracle W) (w : W) (chunks : list string) :
  let '(_, tr, _) := run world (generateEmbeddings env chunks) w in
  Forall (fun ev => party_of ev = Embedder) tr
  /\ forall k, In k (embeddings_keys tr) -> k = GEMINI_API_KEY env.
Proof.
  unfold generateEmbeddings.
  destruct chunks as [| c cs]; [split; [constructor | intros k []] |].
  cbn [List.length Nat.eqb]. simpl.
  step_await; [split; [parties | intros k [<- | []]; reflexivity] |].
  step_await; [split; [parties | intros k [<- | []]; reflexivity] |].
  destruct x0 as [| v0 rest]; simpl;
    [split; [parties | intros k [<- | []]; reflexivity] |].
  destruct v0; simpl; (split; [parties | intros k [<- | []]; reflexivity]).
Qed.

(* ===================================================================== *)
(** ** The store *)
(* ===================================================================== *)

Lemma last_failure_app (tr1 tr2 : trace) :
  tr2 <> [] -> last_failure (tr1 ++ tr2)%list = last_failure tr2.
Proof.
  intro H. unfold last_failure. rewrite rev_app_distr.
  destruct (List.rev tr2) as [| ev tr] eqn:Hrev; [| reflexivity].
  apply (f_equal (@List.length _)) in Hrev. rewrite length_rev in Hrev.
  destruct tr2; [contradiction | discriminate].
Qed.

Lemma last_failure_nonempty (tr : trace) (e : error) :
  last_failure tr = Some e -> tr <> [].
Proof. intros H ->. discriminate. Qed.

Lemma nth_error_seq_all {A} (l : list A) :
  map (nth_error l) (seq 0 (List.length l)) = map Some l.
Proof.
  induction l as [| a l IH]; [reflexivity |].
  cbn [List.length seq map nth_error].
  rewrite <- seq_shift, map_map. f_equal. rewrite <- IH.
  apply map_ext. reflexivity.
Qed.

Section Store.

Context {W : Type} (world : oracle W).

(** The records of [chunks.map]: the chunks as texts, [vectors[i]] as
    values, in order; only the clock and the random source are asked. *)
Lemma make_records_content (vectors : list vector) (chunks : list string)
  (i : nat) (w : W) :
  exists rs tr w',
    run world (mapi_from_M (make_record vectors) i chunks) w
    = (Returned rs, tr, w')
    /\ map (fun r => text (metadata r)) rs = chunks
    /\ map values rs = map (nth_error vectors) (seq i (List.length chunks))
    /\ Forall (fun ev => party_of ev = Clock) tr.
Proof.
  revert i w. induction chunks as [| c cs IH]; intros i w.
  - do 3 eexists. split; [reflexivity |]. repeat split. constructor.
  - cbn [mapi_from_M]. rewrite run_bind.
    unfold make_record at 1. simpl. step. step. step.
    destruct (IH (S i) w2) as (rs & tr1 & w3 & Hrun & Htext & Hval & Hcl).
    rewrite run_bind, Hrun. cbn [run].
    do 3 eexists. split; [reflexivity |]. simpl.
    rewrite Htext, Hval. repeat split.
    rewrite app_nil_r. parties. exact Hcl.
Qed.

Lemma upsert_from_parties (records : list record) (i : nat) (w : W) :
  let '(_, tr, _) := run world (upsert_from records i) w in
  Forall (fun ev => party_of ev = Store) tr /\ queries tr = [].
Proof.
  remember (List.length records - i)%nat as n eqn:Hn.
  revert i w Hn. induction n as [n IH] using lt_wf_ind. intros i w Hn.
  rewrite upsert_from_step.
  destruct (lt_dec i (List.length records)) as [Hlt | Hge];
    [| split; [constructor | reflexivity]].
  cbn [run]. step_await; [split; [parties | reflexivity] |].
  assert (Hlt' : (List.length records - (i + batchSize) < n)%nat)
    by (unfold batchSize; lia).
  specialize (IH _ Hlt' (i + batchSize)%nat w0 eq_refl).
  destruct (run world (upsert_from records (i + batchSize)) w0) as [[o tr] w1].
  destruct IH as [IH1 IH2].
  split; [constructor; [reflexivity | exact IH1] | exact IH2].
Qed.

(** A run of [storeInPinecone], taken apart. *)
Lemma storeInPinecone_run (env : environment) (chunks : list string)
  (vectors : list vector) (w : W) :
  let '(o, tr, _) := run world (storeInPinecone env chunks vectors) w in
  (List.length chunks <> List.length vectors
   /\ o = Thrown (Error "Mismatch between chunks and vectors length")
   /\ tr = [])
  \/ (List.length chunks = List.length vectors
      /\ Forall (fun ev => party_of ev = Store \/ party_of ev = Clock) tr
      /\ queries tr = []
      /\ exists rs ks kst,
           map (fun r => text (metadata r)) rs = chunks
           /\ map values rs = map Some vectors
           /\ submitted tr = firstn ks (batches rs 0)
           /\ stored tr = firstn kst (batches rs 0)
           /\ match o with
              | Returned n =>
                  n = List.length chunks /\ stored tr = batches rs 0
              | Thrown e => last_failure tr = Some e
              end).
Proof.
  unfold storeInPinecone.
  destruct (List.length chunks =? List.length vectors)%nat eqn:Hlen; cbn [negb].
  2: { apply Nat.eqb_neq in Hlen. left. repeat split. exact Hlen. }
  apply Nat.eqb_eq in Hlen.
  destruct (make_records_content vectors chunks 0 w)
    as (rs0 & _ & _ & _ & Htext0 & Hval0 & _).
  rewrite Hlen, nth_error_seq_all in Hval0.
  rewrite run_bind, run_await.
  destruct (world _ (NewPinecone (PINECONE_API_KEY env)) w) as [[e | u] w1].
  { right. split; [exact Hlen |]. split; [parties |]. split; [reflexivity |].
    exists rs0, 0%nat, 0%nat.
    split; [exact Htext0 |]. split; [exact Hval0 |].
    generalize (batches rs0 0). intro bs. repeat split. }
  rewrite run_bind, run_await.
  destruct (world _ (PineconeIndex PINECONE_INDEX_NAME) w1) as [[e | u'] w2].
  { right. split; [exact Hlen |]. split; [parties |]. split; [reflexivity |].
    exists rs0, 0%nat, 0%nat.
    split; [exact Htext0 |]. split; [exact Hval0 |].
    generalize (batches rs0 0). intro bs. repeat split. }
  rewrite run_bind. unfold mapi_M.
  destruct (make_records_content vectors chunks 0 w2)
    as (rs & trr & w3 & Hrun & Htext & Hval & Hclock).
  rewrite Hlen, nth_error_seq_all in Hval.
  rewrite Hrun. rewrite run_bind.
  pose proof (upsert_from_run world rs 0 w3) as Hup.
  pose proof (upsert_from_parties rs 0 w3) as Hst.
  destruct (run world (upsert_from rs 0) w3) as [[o tr2] w4].
  destruct Hst as [Hst Hq2].
  destruct Hup as (k & Hstored & _ & Ho).
  assert (Hno : Forall (fun ev => party_of ev <> Store) trr).
  { eapply Forall_impl; [| exact Hclock]. intros ev ->. discriminate. }
  destruct (without_store trr Hno) as (Hsub0 & Hsto0 & Hq0).
  assert (Hparties :
    forall tail,
      Forall (fun ev => party_of ev = Store \/ party_of ev = Clock) tail ->
      Forall (fun ev => party_of ev = Store \/ party_of ev = Clock)
        ([Ev (NewPinecone (PINECONE_API_KEY env)) (inr u)] ++
         [Ev (PineconeIndex PINECONE_INDEX_NAME) (inr u')] ++
         trr ++ tr2 ++ tail)%list).
  { intros tail Htail.
    apply Forall_app; split; [parties |].
    apply Forall_app; split; [parties |].
    apply Forall_app; split.
    { eapply Forall_impl; [| exact Hclock]. intros ev ->. right; reflexivity. }
    apply Forall_app; split; [| exact Htail].
    eapply Forall_impl; [| exact Hst]. intros ev ->. left; reflexivity. }
  destruct o as [u'' | e]; cbn [run].
  - destruct Ho as [Hsub Hk]. right. split; [exact Hlen |].
    split; [apply (Hparties []); constructor |].
    split.
    { cbn [queries app]. rewrite !queries_app, Hq0, Hq2. reflexivity. }
    exists rs, (List.length (batches rs 0)), (List.length (batches rs 0)).
    split; [exact Htext |]. split; [exact Hval |].
    revert Hsub Hk Hstored. generalize (batches rs 0).
    intros bs Hsub Hk Hstored.
    cbn [submitted stored app].
    rewrite !submitted_app, !stored_app, Hsub0, Hsto0, Hsub, Hstored, Hk.
    cbn [submitted stored app]. rewrite !app_nil_r, firstn_all.
    split; [reflexivity |]. split; [reflexivity |].
    split; [| reflexivity].
    rewrite <- Htext. now rewrite length_map.
  - destruct Ho as (Hsub & Hk & Hfail). right. split; [exact Hlen |].
    split.
    { pose proof (Hparties [] (Forall_nil _)) as Hp.
      rewrite !app_nil_r in Hp. exact Hp. }
    split.
    { cbn [queries app]. rewrite !queries_app, Hq0, Hq2. reflexivity. }
    exists rs, (S k), k.
    split; [exact Htext |]. split; [exact Hval |].
    revert Hsub Hk Hstored. generalize (batches rs 0).
    intros bs Hsub Hk Hstored.
    cbn [submitted stored app].
    rewrite !submitted_app, !stored_app, Hsub0, Hsto0, Hsub, Hstored.
    cbn [app]. split; [reflexivity |]. split; [reflexivity |].
    pose proof (last_failure_nonempty _ _ Hfail) as Hne.
    rewrite !app_assoc, last_failure_app; assumption.
Qed.

End Store.

Lemma values_defined (vs : list vector) (rs : list record) :
  map values rs = map Some vs -> Forall (fun r => values r <> None) rs.
Proof.
  revert vs. induction rs as [| r rs IH]; intros [| v vs] H;
    try discriminate; constructor.
  - simpl in H. injection H as Hv _. rewrite Hv. discriminate.
  - simpl in H. injection H as _ Ht. exact (IH vs Ht).
Qed.

(** X3. In every world a call of [storeInPinecone] hands to [index.upsert]
    only records that pair chunk [i] with vector [i]: the records
    submitted, taken in order, carry a prefix of the chunks as texts and
    the same prefix of the vectors as values, so that no record goes out
    with [undefined] values; the same holds of the records the store
    acknowledged.  When the call returns, it returns the number of chunks
    and the acknowledged records carry all the chunks and all the vectors.
    When it throws, either the two lengths differ and nothing was called,
    or a call failed and its error is the one thrown. *)
Theorem X3_store_pairs_chunks_and_vectors (env : environment) {W : Type}
  (world : oracle W) (w : W) (chunks : list string) (vectors : list vector) :
  let '(o, tr, _) := run world (storeInPinecone env chunks vectors) w in
  let texts := map (fun r => text (metadata r)) in
  (exists k,
     texts (List.concat (submitted tr)) = firstn k chunks
     /\ map values (List.concat (submitted tr)) = map Some (firstn k vectors))
  /\ Forall (fun r => values r <> None) (List.concat (submitted tr))
  /\ (exists k,
        texts (List.concat (stored tr)) = firstn k chunks
        /\ map values (List.concat (stored tr)) = map Some (firstn k vectors))
  /\ match o with
     | Returned n =>
         n = List.length chunks
         /\ List.length vectors = n
         /\ texts (List.concat (stored tr)) = chunks
         /\ map values (List.concat (stored tr)) = map Some vectors
     | Thrown e =>
         (List.length chunks <> List.length vectors
          /\ tr = []
          /\ e = Error "Mismatch between chunks and vectors length")
         \/ last_failure tr = Some e
     end.
Proof.
  pose proof (storeInPinecone_run world env chunks vectors w) as H.
  destruct (run world (storeInPinecone env chunks vectors) w) as [[o tr] w'].
  intro texts.
  destruct H as [(Hne & -> & ->) | (Hlen & _ & _ & rs & ks & kst & Ht & Hv & Hsub & Hsto & Ho)].
  - split; [exists 0%nat; split; reflexivity |].
    split; [constructor |].
    split; [exists 0%nat; split; reflexivity |].
    left. repeat split. exact Hne.
  - assert (Hpre : forall k,
              texts (List.concat (firstn k (batches rs 0)))
              = firstn (k * batchSize) chunks
              /\ map values (List.concat (firstn k (batches rs 0)))
                 = map Some (firstn (k * batchSize) vectors)).
    { intro k. rewrite batches_prefix, skipn_0. unfold texts.
      rewrite <- !firstn_map, Ht, Hv. split; reflexivity. }
    split; [exists (ks * batchSize)%nat; rewrite Hsub; apply Hpre |].
    split.
    { apply (values_defined (firstn (ks * batchSize) vectors)).
      rewrite Hsub. apply Hpre. }
    split; [exists (kst * batchSize)%nat; rewrite Hsto; apply Hpre |].
    destruct o as [n | e]; [| right; exact Ho].
    destruct Ho as [-> Hall]. rewrite Hall, batches_concat, skipn_0.
    unfold texts. rewrite Ht, Hv. repeat split. symmetry. exact Hlen.
Qed.

(** Three chunks with their three vectors: one batch, stored whole. *)
Example store_three_chunks :
  let '(o, tr, _) :=
    run (answers plain)
      (storeInPinecone test_env ["a"; "b"; "c"] [[one]; [one; one]; []]) start in
  o = Returned 3%nat
  /\ map (map (fun r => (text (metadata r), values r))) (stored tr)
     = [[("a", Some [one]); ("b", Some [one; one]); ("c", Some [])]].
Proof. vm_compute. split; reflexivity. Qed.

(* ===================================================================== *)
(** ** How many batches *)
(* ===================================================================== *)





(* ===================================================================== *)
(** ** Each step's calls *)
(* ===================================================================== *)

(** Splits a conjunction of facts about an explicit trace and closes the
    routine ones. *)
Ltac leaf :=
  repeat match goal with
    | |- _ /\ _ => split
    | |- Forall _ _ => solve [simpl; repeat constructor; auto]
    | |- forall _, _ -> _ = _ =>
        solve [simpl; intros ? ?;
               repeat match goal with
                 | H : _ \/ _ |- _ => destruct H
                 | H : False |- _ => destruct H
                 end; subst; reflexivity]
    | |- _ = false -> _ => solve [intro; eauto | intro; discriminate]
    | |- _ = _ => reflexivity
    | |- _ <> _ => discriminate
    | |- (_ <= _)%nat => solve [simpl; lia]
    end.

Section Steps.

Context {W : Type} (world : oracle W).

Lemma processDocument_run (documentText : value) (w : W) :
  let '(o, tr, _) := run world (processDocument documentText) w in
  Forall (fun ev => party_of ev = Chunker) tr
  /\ Forall (fun o => o = splitter) (splitter_uses tr)
  /\ (forall t, In t (split_texts tr) -> t = as_string documentText)
  /\ (not_a_text documentText = false ->
      exists r tr', tr = Ev (NewSplitter splitter) r :: tr')
  /\ match o with
     | Returned chunks =>
         chunks <> []
         /\ tr = [ Ev (NewSplitter splitter) (inr tt);
                   Ev (SplitText splitter (as_string documentText))
                     (inr chunks) ]
     | Thrown e =>
         (split_chunks tr = [] \/ split_chunks tr = [[]])
         /\ ((not_a_text documentText = true /\ tr = []
              /\ e = Error "Invalid document text provided")
             \/ last_failure tr = Some e
             \/ e = Error "Document chunking resulted in zero chunks")
     end.
Proof.
  unfold processDocument, processDocument_with.
  destruct (not_a_text documentText) eqn:Hna; simpl.
  { leaf. left; reflexivity. left; leaf. }
  step_await.
  { leaf. left; reflexivity. right; left; reflexivity. }
  step_await.
  { leaf. left; reflexivity. right; left; reflexivity. }
  destruct x as []. destruct x0 as [| c cs]; simpl.
  - leaf. right; reflexivity. right; right; reflexivity.
  - leaf.
Qed.

Lemma queryDocument_run (env : environment) (question : value) (w : W) :
  let '(o, tr, _) := run world (queryDocument env question) w in
  Forall (fun ev => party_of ev = Embedder \/ party_of ev = Store) tr
  /\ submitted tr = []
  /\ stored tr = []
  /\ Forall (fun q => topK q = 3%Z /\ includeMetadata q = true) (queries tr)
  /\ (List.length (queries tr) <= 1)%nat
  /\ (forall k, In k (embeddings_keys tr) -> k = GEMINI_API_KEY env)
  /\ match o with
     | Returned texts =>
         Forall (fun t => t <> EmptyString) texts
         /\ List.length (queries tr) = 1%nat
         /\ exists matches,
              query_results tr = [matches] /\ texts = kept_texts matches
     | Thrown e =>
         query_results tr = []
         /\ ((not_a_text question = true /\ tr = []
              /\ e = Error "Invalid question provided")
             \/ last_failure tr = Some e)
     end.
Proof.
  unfold queryDocument.
  destruct (not_a_text question) eqn:Hna; simpl.
  { leaf. left; leaf. }
  step_await; [leaf; right; reflexivity |].
  step_await; [leaf; right; reflexivity |].
  step_await; [leaf; right; reflexivity |].
  step_await; [leaf; right; reflexivity |].
  step_await; [leaf; right; reflexivity |].
  leaf.
  - rewrite relevantChunks_kept. apply kept_texts_nonempty.
  - eexists. split; [reflexivity | apply relevantChunks_kept].
Qed.

Lemma generateAnswer_run (env : environment) (question : string)
  (context : list string) (w : W) :
  let '(o, tr, _) := run world (generateAnswer env question context) w in
  Forall (fun ev => party_of ev = Model) tr
  /\ match o with
     | Returned answer =>
         context <> []
         /\ tr = [ Ev (NewGoogleGenAI (GEMINI_API_KEY env)) (inr tt);
                   Ev (GenerateContent
                         {| model := "gemini-2.5-flash";
                            contents := prompt question context |})
                      (inr answer) ]
     | Thrown e =>
         (prompts tr = [] \/ prompts tr = [prompt question context])
         /\ completions tr = []
         /\ ((context = [] /\ tr = [])
             \/ last_failure tr = Some e)
     end.
Proof.
  unfold generateAnswer.
  destruct context as [| c cs]; cbn [List.length Nat.eqb]; simpl.
  { leaf. left; reflexivity. left; leaf. }
  step_await.
  { leaf. left; reflexivity. right; reflexivity. }
  step_await.
  { leaf. right; reflexivity. right; reflexivity. }
  destruct x as []. leaf.
Qed.

End Steps.

(* ===================================================================== *)
(** ** The index handler, end to end *)
(* ===================================================================== *)

Lemma parties_not (p q : party) (tr : trace) :
  p <> q ->
  Forall (fun ev => party_of ev = p) tr ->
  Forall (fun ev => party_of ev <> q) tr.
Proof.
  intros Hpq H. eapply Forall_impl; [| exact H].
  intros ev Hev. rewrite Hev. exact Hpq.
Qed.

Lemma parties_not2 (p1 p2 q : party) (tr : trace) :
  p1 <> q -> p2 <> q ->
  Forall (fun ev => party_of ev = p1 \/ party_of ev = p2) tr ->
  Forall (fun ev => party_of ev <> q) tr.
Proof.
  intros H1 H2 H. eapply Forall_impl; [| exact H].
  intros ev [Hev | Hev]; rewrite Hev; assumption.
Qed.

Section IndexHandler.

Context (env : environment) {W : Type} (world : oracle W).

Lemma index_pipeline_run (t0 : Z) (s : string) (w0 : W) :
  s <> EmptyString ->
  let '(o, tr, _) :=
    run world
      (try_catch
         (chunks <- processDocument (VString s) ;;
          vectors <- generateEmbeddings env chunks ;;
          recordCount <- storeInPinecone env chunks vectors ;;
          now <- ask DateNow ;;
          Ret {| status := 200;
                 json := Indexed
                           ("Document successfully indexed with "
                            ++ string_of_nat (List.length chunks) ++ " chunks.")
                           (List.length chunks) recordCount (now - t0)%Z |})
         (fun error =>
            now <- ask DateNow ;;
            Ret {| status := 500;
                   json := Failure "Failed to index document. Please try again."
                             (details_of env error) (Some (now - t0)%Z) |}))
      w0 in
  exists resp trp t1,
    o = Returned resp
    /\ tr = (trp ++ [Ev DateNow t1])%list
    /\ indexing env s t0 t1 resp trp.
Proof.
  intro Hne. unfold indexing. rewrite run_try_catch, run_bind.
  pose proof (processDocument_run world (VString s) w0) as H1.
  destruct (run world (processDocument (VString s)) w0) as [[o1 tr1] w1].
  destruct H1 as (Hp1 & Hu1 & Ht1 & Hfirst & Ho1).
  specialize (Hfirst (not_a_text_string s Hne)).
  destruct (without_store tr1 (parties_not Chunker Store tr1 ltac:(discriminate) Hp1))
    as (Hsub1 & Hsto1 & Hq1).
  pose proof (without_embedder tr1
                (parties_not Chunker Embedder tr1 ltac:(discriminate) Hp1)) as Hk1.
  pose proof (parties_not Chunker Model tr1 ltac:(discriminate) Hp1) as Hm1.
  destruct o1 as [chunks | e].
  2: { (* the chunker threw *)
    cbn [bind ask run]. step.
    exists {| status := 500;
              json := Failure "Failed to index document. Please try again."
                        (details_of env e) (Some (r - t0)%Z) |}, tr1, r.
    split; [reflexivity |]. split; [reflexivity |].
    split; [exact Hfirst |]. split; [exact Hm1 |]. split; [exact Hq1 |].
    split; [exact Ht1 |]. split; [exact Hu1 |].
    split; [rewrite Hk1; intros k [] |].
    split; [exists 0%nat; rewrite Hsto1; reflexivity |].
    left. exists e. split; [reflexivity |].
    destruct Ho1 as [_ [(Hna & _) | [Hf | ->]]].
    - rewrite (not_a_text_string s Hne) in Hna. discriminate.
    - left; exact Hf.
    - right. split; [left; reflexivity | exact Hsub1]. }
  destruct Ho1 as [Hchunks Htr1].
  rewrite run_bind.
  pose proof (generateEmbeddings_run env world w1 chunks) as H2.
  pose proof (generateEmbeddings_parties env world w1 chunks) as H2p.
  destruct (run world (generateEmbeddings env chunks) w1) as [[o2 tr2] w2].
  destruct H2p as [Hp2 Hk2].
  destruct (without_store tr2 (parties_not Embedder Store tr2 ltac:(discriminate) Hp2))
    as (Hsub2 & Hsto2 & Hq2).
  destruct (without_chunker tr2
              (parties_not Embedder Chunker tr2 ltac:(discriminate) Hp2))
    as (Hu2 & Hst2 & Hsc2).
  pose proof (parties_not Embedder Model tr2 ltac:(discriminate) Hp2) as Hm2.
  assert (Hsc1 : split_chunks tr1 = [chunks]) by (rewrite Htr1; reflexivity).
  destruct o2 as [vectors | e].
  2: { (* the embedder threw *)
    cbn [bind ask run]. step.
    exists {| status := 500;
              json := Failure "Failed to index document. Please try again."
                        (details_of env e) (Some (r - t0)%Z) |},
           (tr1 ++ tr2)%list, r.
    split; [reflexivity |]. split; [reflexivity |].
    split; [destruct Hfirst as (r0 & tr' & ->); simpl; eauto |].
    split; [apply Forall_app; split; assumption |].
    split; [rewrite queries_app, Hq1, Hq2; reflexivity |].
    split; [rewrite split_texts_app, Hst2, app_nil_r; exact Ht1 |].
    split; [rewrite splitter_uses_app, Hu2, app_nil_r; exact Hu1 |].
    split; [rewrite embeddings_keys_app, Hk1; exact Hk2 |].
    split; [exists 0%nat; rewrite stored_app, Hsto1, Hsto2; reflexivity |].
    left. exists e. split; [reflexivity |].
    destruct H2 as [(Hnil & _) | [Hf | (-> & _)]].
    - contradiction.
    - left. rewrite last_failure_app;
        [exact Hf | exact (last_failure_nonempty _ _ Hf)].
    - right. split; [right; left; reflexivity |].
      rewrite submitted_app, Hsub1, Hsub2. reflexivity. }
  destruct H2 as (_ & Htr2 & _).
  rewrite run_bind.
  pose proof (storeInPinecone_run world env chunks vectors w2) as H3.
  destruct (run world (storeInPinecone env chunks vectors) w2) as [[o3 tr3] w3].
  assert (Hfacts :
    forall tr3',
      Forall (fun ev => party_of ev = Store \/ party_of ev = Clock) tr3' ->
      queries tr3' = [] ->
      (exists r trp', (tr1 ++ tr2 ++ tr3')%list = Ev (NewSplitter splitter) r :: trp')
      /\ Forall (fun ev => party_of ev <> Model) (tr1 ++ tr2 ++ tr3')%list
      /\ queries (tr1 ++ tr2 ++ tr3')%list = []
      /\ (forall t, In t (split_texts (tr1 ++ tr2 ++ tr3')%list) -> t = s)
      /\ Forall (fun o => o = splitter) (splitter_uses (tr1 ++ tr2 ++ tr3')%list)
      /\ (forall k, In k (embeddings_keys (tr1 ++ tr2 ++ tr3')%list) ->
                    k = GEMINI_API_KEY env)
      /\ stored (tr1 ++ tr2 ++ tr3')%list = stored tr3'
      /\ split_chunks (tr1 ++ tr2 ++ tr3')%list = [chunks]).
  { intros tr3' Hp3 Hq3.
    destruct (without_chunker tr3'
                (parties_not2 Store Clock Chunker tr3'
                   ltac:(discriminate) ltac:(discriminate) Hp3))
      as (Hu3 & Hst3 & Hsc3).
    pose proof (without_embedder tr3'
                  (parties_not2 Store Clock Embedder tr3'
                     ltac:(discriminate) ltac:(discriminate) Hp3)) as Hk3.
    pose proof (parties_not2 Store Clock Model tr3'
                  ltac:(discriminate) ltac:(discriminate) Hp3) as Hm3.
    split; [destruct Hfirst as (r0 & tr' & ->); simpl; eauto |].
    split; [repeat (apply Forall_app; split); assumption |].
    split; [rewrite !queries_app, Hq1, Hq2, Hq3; reflexivity |].
    split; [rewrite !split_texts_app, Hst2, Hst3, !app_nil_r; exact Ht1 |].
    split; [rewrite !splitter_uses_app, Hu2, Hu3, !app_nil_r; exact Hu1 |].
    split; [rewrite !embeddings_keys_app, Hk1, Hk3, app_nil_r; exact Hk2 |].
    split; [rewrite !stored_app, Hsto1, Hsto2; reflexivity |].
    rewrite !split_chunks_app, Hsc1, Hsc2, Hsc3. reflexivity. }
  destruct H3 as [(Hmis & -> & ->)
                 | (Hlen & Hp3 & Hq3 & rs & ks & kst & Htx & Hvl & Hsub3 & Hsto3 & Ho3)].
  { (* the two lengths differ *)
    cbn [bind ask run]. step.
    destruct (Hfacts [] (Forall_nil _) eq_refl)
      as (F1 & F2 & F3 & F4 & F5 & F6 & F7 & F8).
    exists {| status := 500;
              json := Failure "Failed to index document. Please try again."
                        (details_of env
                           (Error "Mismatch between chunks and vectors length"))
                        (Some (r - t0)%Z) |},
           (tr1 ++ tr2 ++ [])%list, r.
    split; [reflexivity |]. split; [rewrite <- !app_assoc; reflexivity |].
    repeat (split; [assumption |]).
    split; [exists 0%nat; rewrite F7; reflexivity |].
    left. eexists. split; [reflexivity |]. right.
    split; [right; right; left; reflexivity |].
    rewrite !submitted_app, Hsub1, Hsub2. reflexivity. }
  destruct (Hfacts tr3 Hp3 Hq3) as (F1 & F2 & F3 & F4 & F5 & F6 & F7 & F8).
  assert (Hprefix : exists k,
             texts_of (List.concat (stored (tr1 ++ tr2 ++ tr3)%list))
             = firstn k (List.concat (split_chunks (tr1 ++ tr2 ++ tr3)%list))).
  { exists (kst * batchSize)%nat. rewrite F7, F8, Hsto3, batches_prefix, skipn_0.
    unfold texts_of. rewrite <- firstn_map, Htx. simpl. now rewrite app_nil_r. }
  destruct o3 as [n | e].
  2: { (* the store threw *)
    cbn [bind ask run]. step.
    exists {| status := 500;
              json := Failure "Failed to index document. Please try again."
                        (details_of env e) (Some (r - t0)%Z) |},
           (tr1 ++ tr2 ++ tr3)%list, r.
    split; [reflexivity |]. split; [rewrite <- !app_assoc; reflexivity |].
    repeat (split; [assumption |]).
    left. exists e. split; [reflexivity |]. left.
    pose proof (last_failure_nonempty _ _ Ho3) as Hne3.
    rewrite app_assoc, last_failure_app; assumption. }
  destruct Ho3 as [-> Hall].
  cbn [bind ask run]. step.
  exists {| status := 200;
            json := Indexed
                      ("Document successfully indexed with "
                       ++ string_of_nat (List.length chunks) ++ " chunks.")
                      (List.length chunks) (List.length chunks) (r - t0)%Z |},
         (tr1 ++ tr2 ++ tr3)%list, r.
  split; [reflexivity |]. split; [rewrite <- !app_assoc; reflexivity |].
  repeat (split; [assumption |]).
  right. exists chunks, vectors, tr3.
  split; [reflexivity |]. split; [rewrite Htr1, Htr2; reflexivity |].
  split; [exact Hchunks |]. split; [symmetry; exact Hlen |].
  split; [exact Hp3 |].
  rewrite Hall, batches_concat, skipn_0. unfold texts_of. split; assumption.
Qed.

End IndexHandler.

Lemma text_value (v : value) :
  truthy v = true -> typeof v = "string" ->
  exists s, v = VString s /\ s <> EmptyString.
Proof.
  destruct v; try discriminate. simpl. intros Ht _.
  exists s. split; [reflexivity |].
  apply negb_true_iff in Ht. now apply String.eqb_neq.
Qed.

(** A run of the index handler: a 400 after the clock reading alone, or
    the pipeline between two clock readings. *)
Lemma index_document_run (env : environment) {W : Type} (world : oracle W)
  (w : W) (req_body : object) :
  let documentText := get req_body "documentText" in
  let '(o, tr, _) := run world (index_document env req_body) w in
  exists resp t0,
    o = Returned resp
    /\ ((exists msg,
           resp = client_error msg
           /\ tr = [Ev DateNow t0]
           /\ (truthy documentText = false
               \/ typeof documentText <> "string"
               \/ (strlen (as_string documentText) > 500000)%Z))
        \/ (exists s trp t1,
              documentText = VString s
              /\ s <> EmptyString
              /\ (strlen s <= 500000)%Z
              /\ tr = (Ev DateNow t0 :: trp ++ [Ev DateNow t1])%list
              /\ indexing env s t0 t1 resp trp)).
Proof.
  intro documentText. unfold index_document. fold documentText.
  cbn [bind ask run]. step.
  destruct (truthy documentText) eqn:Htruthy; cbn [negb].
  2: { simpl. do 2 eexists. split; [reflexivity |]. left.
       eexists. split; [reflexivity |]. split; [reflexivity |]. left; reflexivity. }
  destruct (String.eqb (typeof documentText) "string") eqn:Htype; cbn [negb].
  2: { simpl. do 2 eexists. split; [reflexivity |]. left.
       eexists. split; [reflexivity |]. split; [reflexivity |].
       right; left. now apply String.eqb_neq. }
  apply String.eqb_eq in Htype.
  destruct (strlen (as_string documentText) >? 500000)%Z eqn:Hlen.
  { simpl. do 2 eexists. split; [reflexivity |]. left.
    eexists. split; [reflexivity |]. split; [reflexivity |].
    right; right. rewrite Z.gtb_ltb in Hlen. apply Z.ltb_lt in Hlen. lia. }
  rewrite Z.gtb_ltb in Hlen. apply Z.ltb_ge in Hlen.
  destruct (text_value documentText Htruthy Htype) as (s & Hs & Hne).
  rewrite Hs in *. cbn [as_string] in Hlen.
  pose proof (index_pipeline_run env world r s w0 Hne) as Hp.
  match type of Hp with
  | context [run world ?q ?w1] =>
      match goal with
      | |- context [run world ?p w1] =>
          change (run world p w1) with (run world q w1)
      end
  end.
  match goal with
  | |- context [run world ?p ?w'] =>
      destruct (run world p w') as [[o tr] w2]
  end.
  destruct Hp as (resp & trp & t1 & -> & -> & Hfacts).
  exists resp, r. split; [reflexivity |]. right.
  exists s, trp, t1. repeat (split; [first [reflexivity | assumption] |]).
  exact Hfacts.
Qed.

Lemma calls_to_none (p : party) (tr : trace) :
  Forall (fun ev => party_of ev <> p) tr -> calls_to p tr = [].
Proof.
  induction 1 as [| ev tr Hev _ IH]; [reflexivity |].
  unfold calls_to in *. cbn [filter].
  destruct (party_of ev), p; simpl; try exact IH; contradiction.
Qed.

Lemma calls_to_app (p : party) (tr1 tr2 : trace) :
  calls_to p (tr1 ++ tr2)%list = (calls_to p tr1 ++ calls_to p tr2)%list.
Proof. apply filter_app. Qed.

(** X5. In every world, when the index handler answers with the indexed
    shape, the status is 200, [recordCount] equals [chunkCount], which is
    at least 1 and is the number in the message; the request's
    [documentText] is the one text that was handed to the splitter,
    unchanged; and the records the store acknowledged carry, in order,
    exactly the chunks the splitter returned.  The handler never throws
    and never answers with the shape of the answer handler. *)
Theorem X5_index_success (env : environment) {W : Type} (world : oracle W)
  (w : W) (req_body : object) :
  let '(o, tr, _) := run world (index_document env req_body) w in
  match o with
  | Thrown _ => False
  | Returned resp =>
      match json resp with
      | Indexed msg chunkCount recordCount _ =>
          status resp = 200%Z
          /\ recordCount = chunkCount
          /\ (1 <= chunkCount)%nat
          /\ msg = "Document successfully indexed with "
                   ++ string_of_nat chunkCount ++ " chunks."
          /\ exists s chunks,
               get req_body "documentText" = VString s
               /\ split_texts tr = [s]
               /\ split_chunks tr = [chunks]
               /\ List.length chunks = chunkCount
               /\ texts_of (List.concat (stored tr)) = chunks
      | Failure _ _ _ => status resp = 400%Z \/ status resp = 500%Z
      | Answered _ _ _ => False
      end
  end.
Proof.
  pose proof (index_document_run env world w req_body) as H. cbv zeta in H.
  destruct (run world (index_document env req_body) w) as [[o tr] w'].
  destruct H as (resp & t0 & -> & [(msg & -> & _) | H]).
  { left; reflexivity. }
  destruct H as (s & trp & t1 & Hs & Hne & Hlen & -> & Hfacts).
  destruct Hfacts as (_ & _ & _ & _ & _ & _ & _ & [(e & -> & _) | H]).
  { right; reflexivity. }
  destruct H as (chunks & vectors & tr3 & -> & -> & Hchunks & _ & Hp3 & Htexts & _).
  cbn [json status].
  destruct (without_chunker tr3
              (parties_not2 Store Clock Chunker tr3
                 ltac:(discriminate) ltac:(discriminate) Hp3))
    as (_ & Hst3 & Hsc3).
  split; [reflexivity |]. split; [reflexivity |].
  split; [destruct chunks; [contradiction | simpl; lia] |].
  split; [reflexivity |].
  exists s, chunks. split; [exact Hs |].
  change (Ev DateNow t0 :: ?l)%list with ([Ev DateNow t0] ++ l)%list.
  rewrite !split_texts_app, !split_chunks_app, !stored_app, Hst3, Hsc3.
  cbn [split_texts split_chunks stored app].
  rewrite !app_nil_r. repeat split. exact Htexts.
Qed.

(** X6. In every world, when the index handler answers with the failure
    shape, either it is a 400 without details or duration, sent after the
    clock reading alone, or it is a 500 with the one generic message,
    sent between two clock readings whose difference is the duration.
    The details of a 500 are what [NODE_ENV] allows of an error [e] of
    this very run: either the last call before the closing clock reading
    failed with [e], or [e] is one of the three errors the pipeline throws
    itself (no chunk, no usable vector, chunks and vectors of different
    lengths) and then no batch was handed to the store.  In both cases
    what the store acknowledged is a prefix of the chunks the splitter
    returned (nothing, for a 400), never anything else. *)
Theorem X6_index_failure (env : environment) {W : Type} (world : oracle W)
  (w : W) (req_body : object) :
  let '(o, tr, _) := run world (index_document env req_body) w in
  match o with
  | Thrown _ => False
  | Returned resp =>
      match json resp with
      | Failure msg details duration =>
          ((status resp = 400%Z /\ details = None /\ duration = None
            /\ exists t0, tr = [Ev DateNow t0])
           \/ (status resp = 500%Z
               /\ msg = "Failed to index document. Please try again."
               /\ exists e t0 t1 trp,
                    tr = (Ev DateNow t0 :: trp ++ [Ev DateNow t1])%list
                    /\ duration = Some (t1 - t0)%Z
                    /\ details = details_of env e
                    /\ (last_failure trp = Some e
                        \/ (In e [ Error "Document chunking resulted in zero chunks";
                                   Error "Failed to generate valid embeddings - empty vectors returned";
                                   Error "Mismatch between chunks and vectors length" ]
                            /\ submitted tr = []))))
          /\ exists k,
               texts_of (List.concat (stored tr))
               = firstn k (List.concat (split_chunks tr))
      | _ => True
      end
  end.
Proof.
  pose proof (index_document_run env world w req_body) as H. cbv zeta in H.
  destruct (run world (index_document env req_body) w) as [[o tr] w'].
  destruct H as (resp & t0 & -> & [(msg & -> & -> & _) | H]).
  { cbn [json client_error status]. split.
    - left. repeat split. eauto.
    - exists 0%nat. reflexivity. }
  destruct H as (s & trp & t1 & Hs & Hne & Hlen & -> & Hfacts).
  destruct Hfacts as (_ & _ & _ & _ & _ & _ & (k & Hk) & [(e & -> & He) | H]).
  2: { destruct H as (chunks & vectors & tr3 & -> & _). exact I. }
  cbn [json status]. split.
  - right. split; [reflexivity |]. split; [reflexivity |].
    exists e, t0, t1, trp. split; [reflexivity |]. split; [reflexivity |].
    split; [reflexivity |].
    destruct He as [He | [He Hsub]]; [left; exact He |].
    right. split; [exact He |].
    cbn [submitted]. rewrite submitted_app, Hsub. reflexivity.
  - exists k. cbn [stored split_chunks].
    rewrite stored_app, split_chunks_app. cbn [stored split_chunks].
    rewrite !app_nil_r. exact Hk.
Qed.

(** X7. In every world and on every request the index handler calls
    neither the language model nor the search of the index; every text it
    hands to the splitter is the request's [documentText] itself; every
    call to the splitter library carries the options 500/100; and every
    embeddings client is constructed with [GEMINI_API_KEY]. *)
Theorem X7_index_calls (env : environment) {W : Type} (world : oracle W)
  (w : W) (req_body : object) :
  let '(_, tr, _) := run world (index_document env req_body) w in
  calls_to Model tr = []
  /\ prompts tr = []
  /\ queries tr = []
  /\ Forall (fun t => get req_body "documentText" = VString t) (split_texts tr)
  /\ Forall (fun o => o = splitter) (splitter_uses tr)
  /\ Forall (fun k => k = GEMINI_API_KEY env) (embeddings_keys tr).
Proof.
  pose proof (index_document_run env world w req_body) as H. cbv zeta in H.
  destruct (run world (index_document env req_body) w) as [[o tr] w'].
  destruct H as (resp & t0 & _ & [(msg & _ & -> & _) | H]).
  { repeat split; constructor. }
  destruct H as (s & trp & t1 & Hs & _ & _ & -> & Hfacts).
  destruct Hfacts as (_ & Hm & Hq & Ht & Hu & Hk & _).
  destruct (without_model trp Hm) as [Hpr _].
  change (Ev DateNow t0 :: trp ++ [Ev DateNow t1])%list
    with ([Ev DateNow t0] ++ trp ++ [Ev DateNow t1])%list.
  rewrite !calls_to_app, !prompts_app, !queries_app, !split_texts_app,
    !splitter_uses_app, !embeddings_keys_app.
  rewrite (calls_to_none Model trp Hm), Hpr, Hq.
  cbn [calls_to filter party_of party_eqb prompts queries split_texts
         splitter_uses embeddings_keys app].
  rewrite !app_nil_r.
  split; [reflexivity |]. split; [reflexivity |]. split; [reflexivity |].
  split; [| split; [exact Hu |]].
  - apply Forall_forall. intros t Hin. rewrite (Ht t Hin). exact Hs.
  - apply Forall_forall. exact Hk.
Qed.

(* ===================================================================== *)
(** ** The answer handler, end to end *)
(* ===================================================================== *)

Lemma completions_app (tr1 tr2 : trace) :
  completions (tr1 ++ tr2)%list = (completions tr1 ++ completions tr2)%list.
Proof.
  induction tr1 as [| ev tr1 IH]; [reflexivity |].
  destruct ev as [R op r]. destruct op; simpl; rewrite ?IH; try reflexivity.
  destruct r; simpl; rewrite ?IH; reflexivity.
Qed.

Lemma query_results_app (tr1 tr2 : trace) :
  query_results (tr1 ++ tr2)%list
  = (query_results tr1 ++ query_results tr2)%list.
Proof.
  induction tr1 as [| ev tr1 IH]; [reflexivity |].
  destruct ev as [R op r]. destruct op; simpl; rewrite ?IH; try reflexivity.
  destruct r; simpl; rewrite ?IH; reflexivity.
Qed.

Lemma without_model_completions (tr : trace) :
  Forall (fun ev => party_of ev <> Model) tr -> completions tr = [].
Proof.
  induction 1 as [| ev tr Hev _ IH]; [reflexivity |].
  destruct ev as [R op r]; destruct op; simpl in *;
    try (exfalso; apply Hev; reflexivity); assumption.
Qed.

Lemma without_store_results (tr : trace) :
  Forall (fun ev => party_of ev <> Store) tr -> query_results tr = [].
Proof.
  induction 1 as [| ev tr Hev _ IH]; [reflexivity |].
  destruct ev as [R op r]; destruct op; simpl in *;
    try (exfalso; apply Hev; reflexivity); assumption.
Qed.

Section AnswerHandler.

Context (env : environment) {W : Type} (world : oracle W).

Lemma answer_pipeline_run (t0 : Z) (q : string) (w0 : W) :
  q <> EmptyString ->
  let '(o, tr, _) :=
    run world
      (try_catch
         (relevant <- queryDocument env (VString q) ;;
          if (List.length relevant =? 0)%nat then
            now <- ask DateNow ;;
            Ret {| status := 200;
                   json := Answered not_found_answer 0 (now - t0)%Z |}
          else
            answer <- generateAnswer env q relevant ;;
            now <- ask DateNow ;;
            Ret {| status := 200;
                   json := Answered answer (List.length relevant)
                             (now - t0)%Z |})
         (fun error =>
            now <- ask DateNow ;;
            Ret {| status := 500;
                   json := Failure
                             "Failed to answer the question. Please try again."
                             (details_of env error) (Some (now - t0)%Z) |}))
      w0 in
  exists resp trp t1,
    o = Returned resp
    /\ tr = (trp ++ [Ev DateNow t1])%list
    /\ answering env q t0 t1 resp trp.
Proof.
  intro Hne. unfold answering. rewrite run_try_catch, run_bind.
  pose proof (queryDocument_run world env (VString q) w0) as H1.
  destruct (run world (queryDocument env (VString q)) w0) as [[o1 tr1] w1].
  destruct H1 as (Hp1 & Hsub1 & _ & Hq1 & Hlen1 & Hk1 & Ho1).
  pose proof (parties_not2 Embedder Store Model tr1
                ltac:(discriminate) ltac:(discriminate) Hp1) as Hm1.
  pose proof (parties_not2 Embedder Store Chunker tr1
                ltac:(discriminate) ltac:(discriminate) Hp1) as Hc1.
  pose proof (parties_not2 Embedder Store Clock tr1
                ltac:(discriminate) ltac:(discriminate) Hp1) as Hcl1.
  destruct (without_model tr1 Hm1) as [Hpr1 _].
  pose proof (without_model_completions tr1 Hm1) as Hco1.
  pose proof (calls_to_none Model tr1 Hm1) as Hcm1.
  destruct o1 as [texts | e].
  2: { (* the retrieval threw *)
    cbn [bind ask run]. step.
    exists {| status := 500;
              json := Failure "Failed to answer the question. Please try again."
                        (details_of env e) (Some (r - t0)%Z) |}, tr1, r.
    split; [reflexivity |]. split; [reflexivity |].
    repeat (split; [assumption |]).
    left. exists e. split; [reflexivity |].
    destruct Ho1 as [_ [(Hna & _) | Hf]].
    - rewrite (not_a_text_string q Hne) in Hna. discriminate.
    - split; [exact Hf |]. split; [exact Hco1 |]. left; exact Hpr1. }
  destruct Ho1 as (_ & _ & ms & Hres & ->).
  destruct (kept_texts ms) as [| t ts] eqn:Hkept; cbn [List.length Nat.eqb].
  { (* nothing retrieved *)
    rewrite run_bind. cbn [ask run]. step.
    exists {| status := 200;
              json := Answered not_found_answer 0 (r - t0)%Z |}, tr1, r.
    split; [reflexivity |]. split; [rewrite <- ?app_assoc, ?app_nil_r; reflexivity |].
    repeat (split; [assumption |]).
    right; left. exists ms. repeat split; assumption. }
  rewrite run_bind.
  pose proof (generateAnswer_run world env q (t :: ts) w1) as H2.
  destruct (run world (generateAnswer env q (t :: ts)) w1) as [[o2 tr2] w2].
  destruct H2 as [Hp2 Ho2].
  destruct (without_store tr2 (parties_not Model Store tr2 ltac:(discriminate) Hp2))
    as (Hsub2 & _ & Hq2).
  pose proof (without_store_results tr2
                (parties_not Model Store tr2 ltac:(discriminate) Hp2)) as Hres2.
  pose proof (without_embedder tr2
                (parties_not Model Embedder tr2 ltac:(discriminate) Hp2)) as Hk2.
  pose proof (parties_not Model Chunker tr2 ltac:(discriminate) Hp2) as Hc2.
  pose proof (parties_not Model Clock tr2 ltac:(discriminate) Hp2) as Hcl2.
  assert (Hcommon :
    submitted (tr1 ++ tr2)%list = []
    /\ Forall (fun ev => party_of ev <> Chunker) (tr1 ++ tr2)%list
    /\ Forall (fun ev => party_of ev <> Clock) (tr1 ++ tr2)%list
    /\ Forall (fun o => topK o = 3%Z /\ includeMetadata o = true)
         (queries (tr1 ++ tr2)%list)
    /\ (List.length (queries (tr1 ++ tr2)%list) <= 1)%nat
    /\ (forall k, In k (embeddings_keys (tr1 ++ tr2)%list) ->
                  k = GEMINI_API_KEY env)
    /\ query_results (tr1 ++ tr2)%list = [ms]
    /\ prompts (tr1 ++ tr2)%list = prompts tr2
    /\ completions (tr1 ++ tr2)%list = completions tr2).
  { rewrite submitted_app, queries_app, embeddings_keys_app, query_results_app,
      prompts_app, completions_app, Hsub1, Hsub2, Hq2, Hk2, Hres2, Hres,
      Hpr1, Hco1, !app_nil_r.
    split; [reflexivity |].
    split; [apply Forall_app; split; assumption |].
    split; [apply Forall_app; split; assumption |].
    repeat split; assumption. }
  destruct Hcommon as (C1 & C2 & C3 & C4 & C5 & C6 & C7 & C8 & C9).
  destruct o2 as [answer | e].
  2: { (* the generator threw *)
    cbn [bind ask run]. step.
    exists {| status := 500;
              json := Failure "Failed to answer the question. Please try again."
                        (details_of env e) (Some (r - t0)%Z) |},
           (tr1 ++ tr2)%list, r.
    split; [reflexivity |]. split; [reflexivity |].
    repeat (split; [assumption |]).
    left. exists e. split; [reflexivity |].
    destruct Ho2 as (Hpr2 & Hco2 & [(Hnil & _) | Hf]); [discriminate Hnil |].
    split; [rewrite last_failure_app;
            [exact Hf | exact (last_failure_nonempty _ _ Hf)] |].
    split; [rewrite C9; exact Hco2 |].
    rewrite C8. destruct Hpr2 as [-> | ->]; [left; reflexivity |].
    right. exists ms. rewrite Hkept.
    split; [exact C7 |]. split; [discriminate | reflexivity]. }
  destruct Ho2 as [_ Htr2].
  rewrite run_bind. cbn [ask run]. step.
  exists {| status := 200;
            json := Answered answer (List.length (t :: ts)) (r - t0)%Z |},
         (tr1 ++ tr2)%list, r.
  split; [reflexivity |].
  split; [rewrite <- ?app_assoc, ?app_nil_r; reflexivity |].
  repeat (split; [assumption |]).
  right; right. exists ms, answer. rewrite Hkept.
  split; [exact C7 |]. split; [discriminate |]. split; [reflexivity |].
  rewrite C8, C9, calls_to_app, Hcm1, Htr2. repeat split.
Qed.

(** A run of the answer handler: a 400 after the clock reading alone, or
    retrieval and generation between two clock readings. *)
Lemma answer_question_run (w : W) (req_body : object) :
  let question := get req_body "question" in
  let '(o, tr, _) := run world (answer_question env req_body) w in
  exists resp t0,
    o = Returned resp
    /\ ((exists msg,
           resp = client_error msg
           /\ tr = [Ev DateNow t0]
           /\ ((truthy question = false /\ msg = "Question is required.")
               \/ (truthy question = true /\ typeof question <> "string"
                   /\ msg = "Question must be a string.")
               \/ (truthy question = true /\ typeof question = "string"
                   /\ (strlen (as_string question) > 1000)%Z
                   /\ msg = "Question exceeds maximum length of 1,000 characters.")))
        \/ (exists q trp t1,
              question = VString q
              /\ q <> EmptyString
              /\ (strlen q <= 1000)%Z
              /\ tr = (Ev DateNow t0 :: trp ++ [Ev DateNow t1])%list
              /\ answering env q t0 t1 resp trp)).
Proof.
  intro question. unfold answer_question. fold question.
  cbn [bind ask run]. step.
  destruct (truthy question) eqn:Htruthy; cbn [negb].
  2: { simpl. do 2 eexists. split; [reflexivity |]. left.
       eexists. split; [reflexivity |]. split; [reflexivity |].
       left; split; reflexivity. }
  destruct (String.eqb (typeof question) "string") eqn:Htype; cbn [negb].
  2: { simpl. do 2 eexists. split; [reflexivity |]. left.
       eexists. split; [reflexivity |]. split; [reflexivity |].
       right; left. split; [reflexivity |].
       split; [now apply String.eqb_neq | reflexivity]. }
  apply String.eqb_eq in Htype.
  destruct (strlen (as_string question) >? 1000)%Z eqn:Hlen.
  { simpl. do 2 eexists. split; [reflexivity |]. left.
    eexists. split; [reflexivity |]. split; [reflexivity |].
    right; right. rewrite Z.gtb_ltb in Hlen. apply Z.ltb_lt in Hlen.
    repeat split; [exact Htype | lia]. }
  rewrite Z.gtb_ltb in Hlen. apply Z.ltb_ge in Hlen.
  destruct (text_value question Htruthy Htype) as (q & Hq & Hne).
  rewrite Hq in *. cbn [as_string] in Hlen |- *.
  pose proof (answer_pipeline_run r q w0 Hne) as Hp.
  match type of Hp with
  | context [run world ?p' ?w1] =>
      match goal with
      | |- context [run world ?p w1] =>
          change (run world p w1) with (run world p' w1)
      end
  end.
  match goal with
  | |- context [run world ?p ?w'] =>
      destruct (run world p w') as [[o tr] w2]
  end.
  destruct Hp as (resp & trp & t1 & -> & -> & Hfacts).
  exists resp, r. split; [reflexivity |]. right.
  exists q, trp, t1. repeat (split; [first [reflexivity | assumption] |]).
  exact Hfacts.
Qed.

End AnswerHandler.

Lemma last_failure_In (tr : trace) (e : error) :
  last_failure tr = Some e -> exists ev, In ev tr /\ failure ev = Some e.
Proof.
  unfold last_failure. intro H.
  destruct (List.rev tr) as [| ev tr'] eqn:Hrev; [discriminate |].
  exists ev. split; [| exact H].
  apply in_rev. rewrite Hrev. left; reflexivity.
Qed.

(** X8. On every request body the answer handler answers (it never
    throws), and its answer follows the three checks in their order: a
    missing or falsy [question] gets the 400 "required" response, a truthy
    non-string the 400 "must be a string" response, a string of more than
    1,000 characters the 400 "exceeds" response, and anything else is not
    answered with a 400.  A run that ends in a 400 has read the clock and
    called nothing else. *)
Theorem X8_answer_validation (env : environment) {W : Type}
  (world : oracle W) (w : W) (req_body : object) :
  let question := get req_body "question" in
  let '(o, tr, _) := run world (answer_question env req_body) w in
  exists resp,
    o = Returned resp
    /\ (truthy question = false ->
        resp = client_error "Question is required.")
    /\ (truthy question = true -> typeof question <> "string" ->
        resp = client_error "Question must be a string.")
    /\ (truthy question = true -> typeof question = "string" ->
        (strlen (as_string question) > 1000)%Z ->
        resp = client_error
                 "Question exceeds maximum length of 1,000 characters.")
    /\ (truthy question = true -> typeof question = "string" ->
        (strlen (as_string question) <= 1000)%Z ->
        status resp <> 400%Z)
    /\ (status resp = 400%Z -> existsb downstream tr = false).
Proof.
  intro question.
  pose proof (answer_question_run env world w req_body) as H.
  cbv zeta in H. fold question in H.
  destruct (run world (answer_question env req_body) w) as [[o tr] w'].
  destruct H as (resp & t0 & -> & [(msg & -> & -> & Hwhy) | H]).
  - exists (client_error msg). split; [reflexivity |].
    destruct Hwhy as [(Ht & ->) | [(Ht & Hty & ->) | (Ht & Hty & Hlen & ->)]];
      conjuncts.
  - destruct H as (q & trp & t1 & Hq & Hne & Hlen & -> & Hfacts).
    exists resp. split; [reflexivity |].
    assert (Hst : status resp <> 400%Z).
    { destruct Hfacts as (_ & _ & _ & _ & _ & _ &
        [(e & -> & _) | [(ms & _ & _ & -> & _) | (ms & a & _ & _ & -> & _)]]);
        discriminate. }
    rewrite Hq in *. cbn [truthy typeof as_string] in *.
    apply String.eqb_neq in Hne. rewrite Hne. conjuncts.
Qed.

Lemma X8_answer_validation_witness :
  let req_body := [("question", VArray [VString "Who sat?"])] in
  let '(o, tr, _) :=
    run (answers plain) (answer_question test_env req_body) start in
  typeof (get req_body "question") <> "string"
  /\ o = Returned (client_error "Question must be a string.")
  /\ tr = [Ev DateNow 1000%Z].
Proof.
  pose proof (X8_answer_validation test_env (answers plain) start
                [("question", VArray [VString "Who sat?"])]) as H.
  simpl in H. destruct H as (resp & Ho & _ & Hstr & _).
  simpl. split; [discriminate |]. split; [| reflexivity].
  rewrite <- (Hstr eq_refl ltac:(discriminate)). exact Ho.
Defined.

(** X9. In every world, when the answer handler answers with the answered
    shape, the status is 200, the request's [question] is a string, one
    search was answered, and [chunksRetrieved] is the number of texts kept
    from its matches.  With none kept the answer is the canned one and the
    language model was not called; otherwise one prompt was sent, built
    from that question and those texts in the order of the matches, and
    the answer is the model's text as it came. *)
Theorem X9_answer_success (env : environment) {W : Type} (world : oracle W)
  (w : W) (req_body : object) :
  let '(o, tr, _) := run world (answer_question env req_body) w in
  match o with
  | Thrown _ => False
  | Returned resp =>
      match json resp with
      | Answered answer chunksRetrieved _ =>
          status resp = 200%Z
          /\ exists q matches,
               get req_body "question" = VString q
               /\ query_results tr = [matches]
               /\ chunksRetrieved = List.length (kept_texts matches)
               /\ ((chunksRetrieved = 0%nat
                    /\ answer = not_found_answer
                    /\ prompts tr = []
                    /\ calls_to Model tr = [])
                   \/ ((1 <= chunksRetrieved)%nat
                       /\ prompts tr = [prompt q (kept_texts matches)]
                       /\ completions tr = [answer]))
      | Failure _ _ _ => status resp = 400%Z \/ status resp = 500%Z
      | Indexed _ _ _ _ => False
      end
  end.
Proof.
  pose proof (answer_question_run env world w req_body) as H. cbv zeta in H.
  destruct (run world (answer_question env req_body) w) as [[o tr] w'].
  destruct H as (resp & t0 & -> & [(msg & -> & _) | H]).
  { left; reflexivity. }
  destruct H as (q & trp & t1 & Hq & _ & _ & -> & Hfacts).
  change (Ev DateNow t0 :: trp ++ [Ev DateNow t1])%list
    with ([Ev DateNow t0] ++ trp ++ [Ev DateNow t1])%list.
  rewrite !query_results_app, !prompts_app, !completions_app, !calls_to_app.
  cbn [query_results prompts completions calls_to filter party_of party_eqb app].
  rewrite !app_nil_r.
  destruct Hfacts as (_ & _ & _ & _ & _ & _ &
    [(e & -> & _) | [(ms & Hres & Hkept & -> & Hpr0 & Hcm)
                    | (ms & a & Hres & Hkept & -> & Hpr & Hco & _)]]);
    cbn [json status].
  - right; reflexivity.
  - split; [reflexivity |]. exists q, ms.
    split; [exact Hq |]. split; [exact Hres |].
    rewrite Hkept. split; [reflexivity |]. left.
    repeat split; assumption.
  - split; [reflexivity |]. exists q, ms.
    split; [exact Hq |]. split; [exact Hres |]. split; [reflexivity |].
    right. split; [| split; assumption].
    destruct (kept_texts ms); [contradiction | simpl; lia].
Qed.

(** X10. In every world and on every request the answer handler writes
    nothing to the store and never calls the splitter; it searches the
    index at most once, with [topK = 3] and the metadata asked for; it
    sends at most one prompt to the language model; every embeddings client
    is constructed with [GEMINI_API_KEY]; and the clock is read at most
    twice. *)
Theorem X10_answer_calls (env : environment) {W : Type} (world : oracle W)
  (w : W) (req_body : object) :
  let '(_, tr, _) := run world (answer_question env req_body) w in
  submitted tr = []
  /\ calls_to Chunker tr = []
  /\ (List.length (queries tr) <= 1)%nat
  /\ Forall (fun o => topK o = 3%Z /\ includeMetadata o = true) (queries tr)
  /\ (List.length (prompts tr) <= 1)%nat
  /\ Forall (fun k => k = GEMINI_API_KEY env) (embeddings_keys tr)
  /\ (List.length (calls_to Clock tr) <= 2)%nat.
Proof.
  pose proof (answer_question_run env world w req_body) as H. cbv zeta in H.
  destruct (run world (answer_question env req_body) w) as [[o tr] w'].
  destruct H as (resp & t0 & _ & [(msg & _ & -> & _) | H]).
  { simpl. repeat split; try constructor; lia. }
  destruct H as (q & trp & t1 & _ & _ & _ & -> & Hfacts).
  destruct Hfacts as (Hsub & Hc & Hcl & Hq & Hlen & Hk & Hcases).
  change (Ev DateNow t0 :: trp ++ [Ev DateNow t1])%list
    with ([Ev DateNow t0] ++ trp ++ [Ev DateNow t1])%list.
  rewrite !submitted_app, !calls_to_app, !queries_app, !prompts_app,
    !embeddings_keys_app, Hsub.
  rewrite (calls_to_none Chunker trp Hc), (calls_to_none Clock trp Hcl).
  cbn [submitted calls_to filter party_of party_eqb queries prompts
         embeddings_keys app List.length].
  rewrite !app_nil_r.
  split; [reflexivity |]. split; [reflexivity |]. split; [exact Hlen |].
  split; [exact Hq |]. split; [| split; [apply Forall_forall; exact Hk | simpl; lia]].
  destruct Hcases as [(e & _ & _ & _ & [-> | (ms & _ & _ & ->)])
                     | [(ms & _ & _ & _ & -> & _)
                       | (ms & a & _ & _ & _ & -> & _)]]; simpl; lia.
Qed.

(** X11. In every world, when the answer handler answers 500 the message
    is the one generic message, no answer of the language model was
    obtained, and the error behind it is the error of a call that failed
    during the request: the guards of the retriever and of the answer
    generator never fire behind the handler's own checks. *)
Theorem X11_answer_failure (env : environment) {W : Type} (world : oracle W)
  (w : W) (req_body : object) :
  let '(o, tr, _) := run world (answer_question env req_body) w in
  match o with
  | Thrown _ => False
  | Returned resp =>
      match json resp with
      | Failure msg details duration =>
          (status resp = 400%Z /\ details = None /\ duration = None)
          \/ (status resp = 500%Z
              /\ msg = "Failed to answer the question. Please try again."
              /\ completions tr = []
              /\ exists e ev,
                   details = details_of env e
                   /\ In ev tr /\ failure ev = Some e)
      | _ => True
      end
  end.
Proof.
  pose proof (answer_question_run env world w req_body) as H. cbv zeta in H.
  destruct (run world (answer_question env req_body) w) as [[o tr] w'].
  destruct H as (resp & t0 & -> & [(msg & -> & _) | H]).
  { left. repeat split. }
  destruct H as (q & trp & t1 & _ & _ & _ & -> & Hfacts).
  destruct Hfacts as (_ & _ & _ & _ & _ & _ &
    [(e & -> & Hf & Hco & _) | [(ms & _ & _ & -> & _)
                               | (ms & a & _ & _ & -> & _)]]);
    cbn [json status]; try exact I.
  right. split; [reflexivity |]. split; [reflexivity |].
  split.
  { change (Ev DateNow t0 :: trp ++ [Ev DateNow t1])%list
      with ([Ev DateNow t0] ++ trp ++ [Ev DateNow t1])%list.
    rewrite !completions_app, Hco. reflexivity. }
  destruct (last_failure_In trp e Hf) as (ev & Hin & Hev).
  exists e, ev. split; [reflexivity |]. split; [| exact Hev].
  right. apply in_or_app. left; exact Hin.
Qed.

(** X12. Outside development mode neither handler ever puts an internal
    error message in a response: whatever the request and the world, a
    failure response has no [details]. *)
Theorem X12_no_details_outside_development (env : environment) {W : Type}
  (world : oracle W) (w : W) (req_body : object) :
  NODE_ENV env <> "development" ->
  (let '(o, _, _) := run world (index_document env req_body) w in
   match o with
   | Returned resp =>
       match json resp with
       | Failure _ details _ => details = None
       | _ => True
       end
   | Thrown _ => False
   end)
  /\ (let '(o, _, _) := run world (answer_question env req_body) w in
      match o with
      | Returned resp =>
          match json resp with
          | Failure _ details _ => details = None
          | _ => True
          end
      | Thrown _ => False
      end).
Proof.
  intro Hprod.
  assert (Hd : forall e, details_of env e = None).
  { intro e. unfold details_of. apply String.eqb_neq in Hprod.
    rewrite Hprod. reflexivity. }
  split.
  - pose proof (index_document_run env world w req_body) as H. cbv zeta in H.
    destruct (run world (index_document env req_body) w) as [[o tr] w'].
    destruct H as (resp & t0 & -> & [(msg & -> & _) | H]); [reflexivity |].
    destruct H as (s & trp & t1 & _ & _ & _ & _ & Hfacts).
    destruct Hfacts as (_ & _ & _ & _ & _ & _ & _ &
      [(e & -> & _) | (chunks & vectors & tr3 & -> & _)]);
      cbn [json]; [apply Hd | exact I].
  - pose proof (answer_question_run env world w req_body) as H. cbv zeta in H.
    destruct (run world (answer_question env req_body) w) as [[o tr] w'].
    destruct H as (resp & t0 & -> & [(msg & -> & _) | H]); [reflexivity |].
    destruct H as (q & trp & t1 & _ & _ & _ & _ & Hfacts).
    destruct Hfacts as (_ & _ & _ & _ & _ & _ &
      [(e & -> & _) | [(ms & _ & _ & -> & _) | (ms & a & _ & _ & -> & _)]]);
      cbn [json]; [apply Hd | exact I | exact I].
Qed.

Lemma X12_no_details_outside_development_witness :
  NODE_ENV production_env <> "development"
  /\ let '(o, _, _) :=
       run (answers blank)
         (index_document production_env [("documentText", VString "   ")])
         start in
     match o with
     | Returned resp =>
         match json resp with
         | Failure _ details _ => details = None
         | _ => True
         end
     | Thrown _ => False
     end.
Proof.
  split; [discriminate |].
  apply (proj1 (X12_no_details_outside_development production_env
                  (answers blank) start [("documentText", VString "   ")]
                  ltac:(discriminate))).
Defined.

(** The same failure seen in production and in development. *)
Example details_by_mode :
  let req_body := [("documentText", VString "   ")] in
  let '(o1, _, _) :=
    run (answers blank) (index_document production_env req_body) start in
  let '(o2, _, _) :=
    run (answers blank) (index_document test_env req_body) start in
  o1 = Returned
         {| status := 500;
            json := Failure "Failed to index document. Please try again."
                      None (Some 1%Z) |}
  /\ o2 = Returned
            {| status := 500;
               json := Failure "Failed to index document. Please try again."
                         (Some "Document chunking resulted in zero chunks")
                         (Some 1%Z) |}.
Proof. split; reflexivity. Qed.

(** X13. When the embedder returns a number of vectors other than the
    number of chunks, the index handler answers 500 (with the mismatch
    message as details in development mode) after the calls of the chunker
    and of the embedder alone: the store is not called and nothing is
    written. *)
Theorem X13_index_mismatch_writes_nothing (env : environment) {W : Type}
  (world : oracle W) (w w0 w1 w2 w3 : W) (req_body : object) (s : string)
  (t0 t1 : Z) (chunks : list string) (vectors : list vector)
  (tr1 tr2 : trace) :
  get req_body "documentText" = VString s ->
  s <> EmptyString ->
  (strlen s <= 500000)%Z ->
  world _ DateNow w = (t0, w0) ->
  run world (processDocument (VString s)) w0 = (Returned chunks, tr1, w1) ->
  run world (generateEmbeddings env chunks) w1 = (Returned vectors, tr2, w2) ->
  List.length vectors <> List.length chunks ->
  world _ DateNow w2 = (t1, w3) ->
  let tr := (Ev DateNow t0 :: tr1 ++ tr2 ++ [Ev DateNow t1])%list in
  run world (index_document env req_body) w
  = (Returned
       {| status := 500;
          json := Failure "Failed to index document. Please try again."
                    (details_of env
                       (Error "Mismatch between chunks and vectors length"))
                    (Some (t1 - t0)%Z) |},
     tr, w3)
  /\ calls_to Store tr = []
  /\ submitted tr = [].
Proof.
  intros Hget Hne Hlen H0 Hp He Hmis H1 tr.
  assert (Hgt : (strlen s >? 500000)%Z = false)
    by (rewrite Z.gtb_ltb; apply Z.ltb_ge; lia).
  assert (Hneq : (List.length chunks =? List.length vectors)%nat = false)
    by (apply Nat.eqb_neq; congruence).
  pose proof (processDocument_run world (VString s) w0) as Hp1.
  rewrite Hp in Hp1. destruct Hp1 as (Hp1 & _).
  pose proof (generateEmbeddings_parties env world w1 chunks) as Hp2.
  rewrite He in Hp2. destruct Hp2 as (Hp2 & _).
  split.
  - apply String.eqb_neq in Hne.
    unfold index_document. rewrite Hget.
    cbn [truthy typeof as_string]. rewrite Hne, Hgt.
    change (negb ("string" =? "string")) with false. cbn [negb].
    rewrite run_bind. cbn [ask run]. rewrite H0.
    rewrite run_try_catch, run_bind, Hp, run_bind, He, run_bind.
    unfold storeInPinecone. rewrite Hneq. cbn [negb run].
    rewrite run_bind. cbn [ask run]. rewrite H1. cbn [run].
    unfold tr. rewrite !app_nil_r, <- !app_assoc. reflexivity.
  - unfold tr.
    change (Ev DateNow t0 :: tr1 ++ tr2 ++ [Ev DateNow t1])%list
      with ([Ev DateNow t0] ++ tr1 ++ tr2 ++ [Ev DateNow t1])%list.
    rewrite !calls_to_app, !submitted_app.
    rewrite (calls_to_none Store tr1
               (parties_not Chunker Store tr1 ltac:(discriminate) Hp1)).
    rewrite (calls_to_none Store tr2
               (parties_not Embedder Store tr2 ltac:(discriminate) Hp2)).
    destruct (without_store tr1
                (parties_not Chunker Store tr1 ltac:(discriminate) Hp1))
      as (-> & _).
    destruct (without_store tr2
                (parties_not Embedder Store tr2 ltac:(discriminate) Hp2))
      as (-> & _).
    split; reflexivity.
Qed.

Lemma X13_index_mismatch_writes_nothing_witness :
  run (answers short_embedder)
    (index_document test_env [("documentText", VString "A cat sat")]) start
  = (Returned
       {| status := 500;
          json := Failure "Failed to index document. Please try again."
                    (Some "Mismatch between chunks and vectors length")
                    (Some 1%Z) |},
     [ Ev DateNow 1000%Z;
       Ev (NewSplitter splitter) (inr tt);
       Ev (SplitText splitter "A cat sat") (inr ["A cat"; "sat"]);
       Ev (NewEmbeddings (embeddings test_env)) (inr tt);
       Ev (EmbedDocuments (embeddings test_env) ["A cat"; "sat"])
         (inr [[one]]);
       Ev DateNow 1001%Z ],
     (1002%Z, 0%nat)).
Proof.
  exact (proj1
    (X13_index_mismatch_writes_nothing test_env (answers short_embedder)
       start (1001%Z, 0%nat) (1001%Z, 0%nat) (1001%Z, 0%nat) (1002%Z, 0%nat)
       [("documentText", VString "A cat sat")] "A cat sat" 1000%Z 1001%Z
       ["A cat"; "sat"] [[one]]
       [ Ev (NewSplitter splitter) (inr tt);
         Ev (SplitText splitter "A cat sat") (inr ["A cat"; "sat"]) ]
       [ Ev (NewEmbeddings (embeddings test_env)) (inr tt);
         Ev (EmbedDocuments (embeddings test_env) ["A cat"; "sat"])
           (inr [[one]]) ]
       eq_refl
       ltac:(discriminate)
       ltac:(vm_compute; discriminate)
       eq_refl eq_refl eq_refl
       ltac:(discriminate)
       eq_refl)).
Defined.

(* ===================================================================== *)
(** ** Numbered items *)
(* ===================================================================== *)

(** A run of digits is closed by the first character that is not one. *)
Lemma digits_then_stop (a b : string) (c1 c2 : ascii) (r1 r2 : string) :
  digits_only a -> digits_only b ->
  is_digit c1 = false -> is_digit c2 = false ->
  a ++ String c1 r1 = b ++ String c2 r2 -> a = b /\ r1 = r2.
Proof.
  revert b. induction a as [| c a IH]; intros [| c' b] Ha Hb H1 H2 H; simpl in *.
  - injection H as _ Hr. split; [reflexivity | exact Hr].
  - injection H as Hc _. destruct Hb as [Hd _]. subst c'. congruence.
  - injection H as Hc _. destruct Ha as [Hd _]. subst c. congruence.
  - injection H as Hc Ht. destruct Ha as [_ Ha]. destruct Hb as [_ Hb].
    destruct (IH b Ha Hb H1 H2 Ht) as [-> ->]. subst c'. split; reflexivity.
Qed.

Lemma item_inj (i j : nat) (c c' : string) :
  "[" ++ string_of_nat i ++ "] " ++ c = "[" ++ string_of_nat j ++ "] " ++ c' ->
  i = j /\ c = c'.
Proof.
  intro H. simpl in H. injection H as H.
  destruct (digits_then_stop (string_of_nat i) (string_of_nat j)
              "]"%char "]"%char (String " " c) (String " " c')
              (digits_of_nat i) (digits_of_nat j) eq_refl eq_refl H)
    as [Hd Hr].
  split; [apply string_of_nat_inj; exact Hd |].
  simpl in Hr. injection Hr as Hr. exact Hr.
Qed.

Lemma mapi_from_items_inj (context context' : list string) (i : nat) :
  mapi_from (fun c i => "[" ++ string_of_nat (i + 1) ++ "] " ++ c) i context
  = mapi_from (fun c i => "[" ++ string_of_nat (i + 1) ++ "] " ++ c) i context' ->
  context = context'.
Proof.
  revert context' i.
  induction context as [| c cs IH]; intros [| c' cs'] i H;
    try discriminate; [reflexivity |].
  cbn [mapi_from] in H. injection H as Hh Ht.
  apply (f_equal (String "["%char)) in Hh.
  destruct (item_inj (i + 1) (i + 1) c c' Hh) as [_ ->].
  f_equal. exact (IH cs' (S i) Ht).
Qed.

(** X14. The numbered lines that [generateAnswer] puts in its prompt are
    pairwise distinct, also when chunks repeat, since the bracketed index
    of each is closed by the first "]"; and they determine the chunks: two
    contexts with the same numbered lines are the same context. *)
Theorem X14_prompt_items (context context' : list string) :
  let item := fun (c : string) (i : nat) =>
                "[" ++ string_of_nat (i + 1) ++ "] " ++ c in
  NoDup (mapi item context)
  /\ (mapi item context = mapi item context' -> context = context').
Proof.
  intro item. split.
  - apply NoDup_nth_error. intros a b Ha Heq.
    unfold mapi in *. rewrite mapi_from_length in Ha.
    rewrite !mapi_from_nth_error in Heq.
    destruct (nth_error context a) as [ca |] eqn:Hca.
    2: { apply nth_error_None in Hca. lia. }
    destruct (nth_error context b) as [cb |] eqn:Hcb; [| discriminate].
    simpl in Heq. injection Heq as Heq.
    apply (f_equal (String "["%char)) in Heq.
    destruct (item_inj (0 + a + 1) (0 + b + 1) ca cb Heq) as [Hab _]. lia.
  - unfold mapi. apply mapi_from_items_inj.
Qed.

Lemma X14_prompt_items_witness :
  mapi (fun (c : string) (i : nat) => "[" ++ string_of_nat (i + 1) ++ "] " ++ c)
    ["same"; "same"]
  = ["[1] same"; "[2] same"]
  /\ NoDup ["[1] same"; "[2] same"].
Proof.
  split; [reflexivity |].
  exact (proj1 (X14_prompt_items ["same"; "same"] ["same"; "same"])).
Defined.

(* ===================================================================== *)
(** ** What the retriever keeps *)
(* ===================================================================== *)

Lemma relevantChunks_app (a b : list scored_match) :
  relevantChunks (a ++ b)%list = (relevantChunks a ++ relevantChunks b)%list.
Proof. unfold relevantChunks. now rewrite filter_app, map_app. Qed.

(** X15. The retriever keeps a text exactly when it is the non-empty
    string [text] of the metadata of one of the matches, and what it keeps
    from two lists of matches put end to end is what it keeps from each,
    put end to end. *)
Theorem X15_relevantChunks_membership (matches more : list scored_match)
  (s : string) :
  (In s (relevantChunks matches) <->
   s <> EmptyString
   /\ exists m, In m matches /\ match_text m = VString s)
  /\ relevantChunks (matches ++ more)%list
     = (relevantChunks matches ++ relevantChunks more)%list.
Proof.
  split; [| apply relevantChunks_app].
  unfold relevantChunks. rewrite in_map_iff. split.
  - intros (m & Hs & Hin). apply filter_In in Hin as [Hin Hkeep].
    rewrite keeps_nonempty_strings in Hkeep.
    destruct (match_text m) as [| | | | t | |] eqn:Hm; try discriminate.
    destruct t as [| c t]; [discriminate |].
    simpl in Hs. subst s. split; [discriminate |]. exists m. split; assumption.
  - intros (Hne & m & Hin & Hm). exists m. split; [rewrite Hm; reflexivity |].
    apply filter_In. split; [exact Hin |].
    rewrite keeps_nonempty_strings, Hm. destruct s; [contradiction | reflexivity].
Qed.

Lemma X15_relevantChunks_membership_witness :
  In "A cat sat on a mat."
    (relevantChunks
       [ {| match_id := "a"; match_score := one; match_metadata := None |};
         {| match_id := "b"; match_score := one;
            match_metadata := Some [("text", VString "A cat sat on a mat.")] |} ]).
Proof.
  apply (proj2 (proj1 (X15_relevantChunks_membership
                         [ {| match_id := "a"; match_score := one;
                              match_metadata := None |};
                           {| match_id := "b"; match_score := one;
                              match_metadata :=
                                Some [("text", VString "A cat sat on a mat.")] |} ]
                         [] "A cat sat on a mat."))).
  split; [discriminate |].
  eexists. split; [right; left; reflexivity | reflexivity].
Defined.

(** X16. The draft of the retrieval step returns one entry per match, the
    empty string standing for a missing or falsy text; the server's
    retrieval returns exactly the draft's entries that are non-empty
    strings, in the same order. *)
Theorem X16_draft_and_server_retrieval (matches : list scored_match) :
  List.length (Draft.relevantChunks matches) = List.length matches
  /\ Forall (fun v => truthy v = true \/ v = VString EmptyString)
       (Draft.relevantChunks matches)
  /\ relevantChunks matches
     = flat_map (fun v => match v with
                          | VString (String c s) => [String c s]
                          | _ => []
                          end)
         (Draft.relevantChunks matches).
Proof.
  unfold Draft.relevantChunks. split; [apply length_map |]. split.
  - apply Forall_forall. intros v Hin. apply in_map_iff in Hin as (m & <- & _).
    destruct (truthy (match_text m)) eqn:Ht; [left; exact Ht | right; reflexivity].
  - rewrite relevantChunks_kept.
    induction matches as [| m ms IH]; [reflexivity |].
    rewrite kept_texts_cons. cbn [map flat_map]. rewrite <- IH.
    destruct (match_text m) as [| | b | x | s | l | l]; try reflexivity.
    + destruct b; reflexivity.
    + destruct x; reflexivity.
    + destruct s; reflexivity.
Qed.

(* ===================================================================== *)
(** ** Start-up *)
(* ===================================================================== *)

(** X17. When start-up does not exit, the OpenAI and Pinecone keys are set
    and not empty, the Pinecone key and the Gemini key are handed on as
    they are, and [NODE_ENV] is not empty; an unset or empty [NODE_ENV]
    becomes [development], the mode in which error details are sent. *)
Theorem X17_start_up (pe : process_env) (env : environment) :
  start_up pe = Some env ->
  is_set (env_OPENAI_API_KEY pe) = true
  /\ env_PINECONE_API_KEY pe = Some (PINECONE_API_KEY env)
  /\ PINECONE_API_KEY env <> EmptyString
  /\ GEMINI_API_KEY env = env_GEMINI_API_KEY pe
  /\ NODE_ENV env <> EmptyString
  /\ (is_set (env_NODE_ENV pe) = false ->
      NODE_ENV env = "development"
      /\ forall e, details_of env e = Some (message e)).
Proof.
  unfold start_up. intro H.
  destruct (env_OPENAI_API_KEY pe) as [[| c1 k1] |]; try discriminate.
  destruct (env_PINECONE_API_KEY pe) as [[| c2 k2] |]; try discriminate.
  simpl in H. injection H as <-. cbn [PINECONE_API_KEY GEMINI_API_KEY NODE_ENV].
  split; [reflexivity |]. split; [reflexivity |]. split; [discriminate |].
  split; [reflexivity |].
  destruct (env_NODE_ENV pe) as [[| c3 k3] |]; simpl.
  - split; [discriminate |]. intros _. split; reflexivity.
  - split; [discriminate |]. intro; discriminate.
  - split; [discriminate |]. intros _. split; reflexivity.
Qed.

Lemma X17_start_up_witness :
  start_up no_gemini = Some {| PINECONE_API_KEY := "pc-key";
                               GEMINI_API_KEY := None;
                               NODE_ENV := "development" |}
  /\ PINECONE_API_KEY {| PINECONE_API_KEY := "pc-key";
                         GEMINI_API_KEY := None;
                         NODE_ENV := "development" |} <> EmptyString.
Proof.
  split; [reflexivity |].
  exact (proj1 (proj2 (proj2 (X17_start_up no_gemini _ eq_refl)))).
Defined.

Lemma start_up_key (pe : process_env) (env : environment) :
  start_up pe = Some env -> GEMINI_API_KEY env = env_GEMINI_API_KEY pe.
Proof.
  unfold start_up. intro H.
  destruct (negb (is_set (env_OPENAI_API_KEY pe))
            || negb (is_set (env_PINECONE_API_KEY pe))); [discriminate |].
  injection H as <-. reflexivity.
Qed.

(** X18. Start-up does not look at [GEMINI_API_KEY]: a process without it
    starts, and then every indexing that reaches the embedder and every
    question that reaches the retriever constructs the embeddings client
    with that missing key. *)
Theorem X18_gemini_key_unchecked (pe : process_env) (env : environment)
  {W : Type} (world : oracle W) (w : W) (chunks : list string)
  (question : string) :
  start_up pe = Some env ->
  chunks <> [] ->
  question <> EmptyString ->
  let client := {| embeddings_apiKey := env_GEMINI_API_KEY pe;
                   embeddings_model := "text-embedding-004" |} in
  (let '(_, tr, _) := run world (generateEmbeddings env chunks) w in
   exists r tr', tr = Ev (NewEmbeddings client) r :: tr')
  /\ (let '(_, tr, _) := run world (queryDocument env (VString question)) w in
      exists r tr', tr = Ev (NewEmbeddings client) r :: tr').
Proof.
  intros Hstart Hc Hq client.
  pose proof (start_up_key pe env Hstart) as Hkey.
  split.
  - unfold generateEmbeddings. destruct chunks as [| c cs]; [contradiction |].
    cbn [List.length Nat.eqb]. simpl.
    unfold embeddings, client. rewrite Hkey.
    step_await; [eauto |]. step_await; [eauto |].
    destruct x0 as [| v0 rest]; simpl; [eauto |].
    destruct v0; simpl; eauto.
  - unfold queryDocument. rewrite (not_a_text_string _ Hq). simpl.
    unfold embeddings, client. rewrite Hkey.
    repeat (step_await; [eauto |]). eauto.
Qed.

Lemma X18_gemini_key_unchecked_witness :
  start_up no_gemini <> None
  /\ let '(_, tr, _) :=
       run (answers plain)
         (generateEmbeddings
            {| PINECONE_API_KEY := "pc-key";
               GEMINI_API_KEY := None;
               NODE_ENV := "development" |} ["A cat"]) start in
     exists r tr',
       tr = Ev (NewEmbeddings {| embeddings_apiKey := None;
                                 embeddings_model := "text-embedding-004" |}) r
            :: tr'.
Proof.
  split; [discriminate |].
  exact (proj1 (X18_gemini_key_unchecked no_gemini _ (answers plain) start
                  ["A cat"] "Who sat?" eq_refl
                  ltac:(discriminate) ltac:(discriminate))).
Defined.

(* ===================================================================== *)
(** ** The batched upsert of [storeInPinecone] *)
(* ===================================================================== *)

Lemma calls_to_all (p : party) (tr : trace) :
  Forall (fun ev => party_of ev = p) tr -> calls_to p tr = tr.
Proof.
  induction 1 as [| ev tr Hev _ IH]; [reflexivity |].
  unfold calls_to in *. cbn [filter]. rewrite Hev, IH.
  destruct p; reflexivity.
Qed.

(** C7. In every world, a run of [storeInPinecone] on as many chunks as
    vectors either fails on a client call before any batch is handed
    over, or builds the records (the chunks as texts, the vectors as
    values, in order) and cuts them into consecutive batches of 1 to 100
    that together are the records, batch [j] being
    [records.slice(100 j, 100 j + 100)].  Besides the two client calls it
    calls nothing of the store but [index.upsert], on these batches in
    order, each acknowledged before the next is handed over.  When the run
    returns, every batch was acknowledged and the result is the number of
    records.  When the call on batch number [k + 1] fails, the run throws
    that error at once: the batches acknowledged are the first [k], that
    is the first [100 k] records, a prefix left in place. *)
Theorem C7_batched_upsert (env : environment) {W : Type} (world : oracle W)
  (w : W) (chunks : list string) (vectors : list vector) :
  List.length chunks = List.length vectors ->
  let '(o, tr, _) := run world (storeInPinecone env chunks vectors) w in
  batched_upsert chunks vectors o tr.
Proof.
  intro Hlen. unfold storeInPinecone, batched_upsert.
  assert (Heq : (List.length chunks =? List.length vectors)%nat = true)
    by (apply Nat.eqb_eq; exact Hlen).
  rewrite Heq. cbn [negb].
  rewrite run_bind, run_await.
  destruct (world _ (NewPinecone (PINECONE_API_KEY env)) w) as [[e | u] w1].
  { left. split; [reflexivity |]. exists e. split; reflexivity. }
  rewrite run_bind, run_await.
  destruct (world _ (PineconeIndex PINECONE_INDEX_NAME) w1) as [[e | u'] w2].
  { left. split; [reflexivity |]. exists e. split; reflexivity. }
  rewrite run_bind. unfold mapi_M.
  destruct (make_records_content world vectors chunks 0 w2)
    as (rs & trr & w3 & Hrun & Htext & Hval & Hclock).
  rewrite Hlen, nth_error_seq_all in Hval.
  rewrite Hrun. rewrite run_bind.
  pose proof (upsert_from_run world rs 0 w3) as Hup.
  pose proof (upsert_from_parties world rs 0 w3) as Hst.
  destruct (run world (upsert_from rs 0) w3) as [[o tr2] w4].
  destruct Hst as [Hst _].
  destruct Hup as (k & Hstored & Hcount & Ho).
  assert (Hno : Forall (fun ev => party_of ev <> Store) trr).
  { eapply Forall_impl; [| exact Hclock]. intros ev ->. discriminate. }
  destruct (without_store trr Hno) as (Hsub0 & Hsto0 & _).
  pose proof (batches_concat rs 0) as Hcat. rewrite skipn_0 in Hcat.
  pose proof (batches_sizes rs 0) as Hsizes.
  assert (Hnth : forall j b,
             nth_error (batches rs 0) j = Some b ->
             b = slice (j * batchSize) (j * batchSize + batchSize) rs)
    by (intros j b H; exact (batches_nth rs j 0 b H)).
  pose proof (batches_prefix rs k 0) as Hpre. rewrite skipn_0 in Hpre.
  destruct o as [u'' | e]; cbn [run]; right; exists rs;
    revert Hcat Hsizes Hnth Hpre Hstored Ho; generalize (batches rs 0);
    intros bs Hcat Hsizes Hnth Hpre Hstored Ho;
    (split; [exact Htext |]); (split; [exact Hval |]);
    (split; [exact Hcat |]); (split; [exact Hsizes |]);
    (split; [exact Hnth |]).
  - destruct Ho as [Hsub Hk].
    rewrite !calls_to_app, !submitted_app, !stored_app, Hsub0, Hsto0,
      (calls_to_none Store trr Hno), (calls_to_all Store tr2 Hst), !app_nil_r.
    cbn [calls_to filter party_of party_eqb submitted stored Datatypes.app
           List.length].
    rewrite Hcount. split; [reflexivity |].
    exists k. split; [exact Hstored |].
    split; [rewrite Hstored; exact Hpre |].
    split; [reflexivity |]. split; [exact Hsub |].
    rewrite Hstored, Hk. apply firstn_all.
  - destruct Ho as (Hsub & Hk & Hfail).
    rewrite !calls_to_app, !submitted_app, !stored_app, Hsub0, Hsto0,
      (calls_to_none Store trr Hno), (calls_to_all Store tr2 Hst).
    cbn [calls_to filter party_of party_eqb submitted stored Datatypes.app
           List.length].
    rewrite Hcount. split; [reflexivity |].
    exists k. split; [exact Hstored |].
    split; [rewrite Hstored; exact Hpre |].
    split; [exact Hsub |]. split; [exact Hk |].
    pose proof (last_failure_nonempty _ _ Hfail) as Hne.
    change (last_failure
              ([Ev (NewPinecone (PINECONE_API_KEY env)) (inr u);
                Ev (PineconeIndex PINECONE_INDEX_NAME) (inr u')]
               ++ trr ++ tr2)%list = Some e).
    rewrite !app_assoc, last_failure_app; assumption.
Qed.

Lemma C7_batched_upsert_witness :
  List.length ["A cat"; "sat"; "on a mat."]
  = List.length [[one]; [one]; [one; one]]
  /\ let '(o, tr, _) :=
       run (answers plain)
         (storeInPinecone test_env ["A cat"; "sat"; "on a mat."]
            [[one]; [one]; [one; one]]) start in
     batched_upsert ["A cat"; "sat"; "on a mat."] [[one]; [one]; [one; one]]
       o tr.
Proof.
  split; [reflexivity |].
  apply (C7_batched_upsert test_env (answers plain) start
           ["A cat"; "sat"; "on a mat."] [[one]; [one]; [one; one]]).
  reflexivity.
Defined.

(** 250 chunks and a store that fails on the second upsert: the call
    throws the store's error, the first hundred records stay stored and
    the third batch is never handed over. *)
Example store_fails_on_second_batch :
  let chunks := map (fun r => text (metadata r)) sample_records in
  let vectors := map (fun _ => [one]) sample_records in
  let '(o, tr, _) :=
    run (answers (failing_store 1))
      (storeInPinecone test_env chunks vectors) start in
  o = Thrown (Error "upsert failed")
  /\ map texts_of (submitted tr)
     = [firstn 100 chunks; firstn 100 (skipn 100 chunks)]
  /\ map texts_of (stored tr) = [firstn 100 chunks].
Proof. vm_compute. repeat split. Qed.

(* ===================================================================== *)
(** ** The guard of the chunker's configuration *)
(* ===================================================================== *)

Lemma answers_guards_overlap (s : script) : guards_overlap (answers s).
Proof.
  intros o w Hbad. cbn [answers fst].
  destruct (chunkOverlap o >=? chunkSize o)%Z eqn:Hge.
  - eexists. reflexivity.
  - rewrite Z.geb_leb in Hge. apply Z.leb_gt in Hge. lia.
Qed.

(** C6. [processDocument] holds no check of the chunker's configuration;
    it constructs the splitter before it hands any text to [splitText],
    and a configuration the constructor turns down ends the run there,
    with the constructor's error.  So in every world in which the
    library's constructor guards the invariant: the configuration the
    program uses, 500/100, satisfies [chunkOverlap < chunkSize] on every
    call; a rejection of it by the constructor is thrown with nothing
    split; and with any configuration with [chunkOverlap >= chunkSize] in
    the place of 500/100, every run throws before [splitText] is called,
    on a text right after the constructor's failure. *)
Theorem C6_overlap_guard {W : Type} (world : oracle W) :
  guards_overlap world ->
  (forall w documentText,
     let '(_, tr, _) := run world (processDocument documentText) w in
     Forall (fun o => chunkSize o = 500%Z /\ chunkOverlap o = 100%Z
                      /\ (chunkOverlap o < chunkSize o)%Z)
       (splitter_uses tr))
  /\ (forall w documentText e w1,
        not_a_text documentText = false ->
        world _ (NewSplitter splitter) w = (inl e, w1) ->
        run world (processDocument documentText) w
        = (Thrown e, [Ev (NewSplitter splitter) (inl e)], w1))
  /\ (forall o w documentText,
        (chunkOverlap o >= chunkSize o)%Z ->
        let '(out, tr, _) :=
          run world (processDocument_with o documentText) w in
        rejected_before_splitting out tr
        /\ (not_a_text documentText = false ->
            exists e,
              out = Thrown e /\ tr = [Ev (NewSplitter o) (inl e)])).
Proof.
  intro Hguard. split; [| split].
  - intros w documentText.
    unfold processDocument, processDocument_with.
    destruct (not_a_text documentText); simpl; [constructor |].
    assert (Hs : chunkSize splitter = 500%Z /\ chunkOverlap splitter = 100%Z
                 /\ (chunkOverlap splitter < chunkSize splitter)%Z)
      by (simpl; repeat split; lia).
    step_await; [repeat constructor; exact Hs |].
    step_await; [repeat constructor; exact Hs |].
    destruct x0 as [| c cs]; simpl; repeat constructor; exact Hs.
  - intros w documentText e w1 Htext Hw.
    unfold processDocument, processDocument_with.
    rewrite Htext, run_bind, run_await, Hw. reflexivity.
  - intros o w documentText Hbad.
    unfold processDocument_with, rejected_before_splitting.
    destruct (not_a_text documentText).
    { simpl. split; [split; [eexists |]; reflexivity | discriminate]. }
    rewrite run_bind, run_await.
    destruct (Hguard o w Hbad) as [e He].
    destruct (world _ (NewSplitter o) w) as [[e' | u] w1];
      cbn [fst] in He; [| discriminate].
    split; [split; [eexists |]; reflexivity |].
    intros _. exists e'. split; reflexivity.
Qed.

Lemma C6_overlap_guard_witness :
  guards_overlap (answers plain)
  /\ (chunkOverlap too_much_overlap >= chunkSize too_much_overlap)%Z
  /\ let '(out, tr, _) :=
       run (answers plain)
         (processDocument_with too_much_overlap (VString "A cat sat on a mat."))
         start in
     rejected_before_splitting out tr
     /\ (not_a_text (VString "A cat sat on a mat.") = false ->
         exists e,
           out = Thrown e
           /\ tr = [Ev (NewSplitter too_much_overlap) (inl e)]).
Proof.
  split; [exact (answers_guards_overlap plain) |].
  split; [vm_compute; discriminate |].
  apply (proj2 (proj2 (C6_overlap_guard (answers plain)
                         (answers_guards_overlap plain)))
           too_much_overlap start (VString "A cat sat on a mat.")).
  vm_compute. discriminate.
Defined.

(** The scripted splitter library turns 100/100 down by name. *)
Example overlap_turned_down :
  run (answers plain)
    (processDocument_with too_much_overlap (VString "A cat sat on a mat."))
    start
  = (Thrown (Error "Cannot have chunkOverlap >= chunkSize"),
     [ Ev (NewSplitter too_much_overlap)
         (inl (Error "Cannot have chunkOverlap >= chunkSize")) ],
     start).
Proof. reflexivity. Qed.

(* ===================================================================== *)
(** ** Retrieval *)
(* ===================================================================== *)

Lemma embedded_questions_app (tr1 tr2 : trace) :
  embedded_questions (tr1 ++ tr2)%list
  = (embedded_questions tr1 ++ embedded_questions tr2)%list.
Proof. induction tr1 as [| ev tr1 IH]; [reflexivity | by_events IH]. Qed.

Lemma without_embedder_questions (tr : trace) :
  Forall (fun ev => party_of ev <> Embedder) tr -> embedded_questions tr = [].
Proof.
  induction 1 as [| ev tr Hev _ IH]; [reflexivity |].
  destruct ev as [R op r]; destruct op; simpl in *;
    try (exfalso; apply Hev; reflexivity); assumption.
Qed.

(** The retriever embeds nothing but its argument. *)
Lemma queryDocument_embeds (env : environment) {W : Type} (world : oracle W)
  (question : value) (w : W) :
  let '(_, tr, _) := run world (queryDocument env question) w in
  forall t, In t (embedded_questions tr) -> t = as_string question.
Proof.
  unfold queryDocument. destruct (not_a_text question); simpl.
  { intros t []. }
  step_await; [intros t [] |].
  step_await; [intros t [<- | []]; reflexivity |].
  step_await; [intros t [<- | []]; reflexivity |].
  step_await; [intros t [<- | []]; reflexivity |].
  step_await; intros t [<- | []]; reflexivity.
Qed.

(** The answer handler hands the retriever the request's question, and
    only once it is known to be a non-empty string. *)
Lemma answer_question_embeds (env : environment) {W : Type}
  (world : oracle W) (w : W) (req_body : object) :
  let '(_, tr, _) := run world (answer_question env req_body) w in
  Forall (fun q => get req_body "question" = VString q /\ q <> EmptyString)
    (embedded_questions tr).
Proof.
  unfold answer_question. set (question := get req_body "question").
  cbn [bind ask run]. step.
  destruct (truthy question) eqn:Htruthy; cbn [negb]; [| simpl; constructor].
  destruct (String.eqb (typeof question) "string") eqn:Htype; cbn [negb];
    [| simpl; constructor].
  apply String.eqb_eq in Htype.
  destruct (strlen (as_string question) >? 1000)%Z; [simpl; constructor |].
  destruct (text_value question Htruthy Htype) as (q & Hq & Hne).
  rewrite Hq. cbn [as_string].
  rewrite run_try_catch, run_bind.
  pose proof (queryDocument_embeds env world (VString q) w0) as H1.
  destruct (run world (queryDocument env (VString q)) w0) as [[o1 tr1] w1].
  cbn [as_string] in H1.
  assert (Hall : Forall (fun q' => VString q = VString q' /\ q' <> EmptyString)
                   (embedded_questions tr1)).
  { apply Forall_forall. intros t Hin. rewrite (H1 t Hin). now split. }
  destruct o1 as [texts | e].
  2: { cbn [bind ask run]. step.
       cbn [embedded_questions]. rewrite embedded_questions_app.
       cbn [embedded_questions]. rewrite app_nil_r. exact Hall. }
  destruct texts as [| t ts]; cbn [List.length Nat.eqb].
  { cbn [bind ask run]. step.
    cbn [embedded_questions]. rewrite !embedded_questions_app.
    cbn [embedded_questions]. rewrite !app_nil_r. exact Hall. }
  rewrite run_bind.
  pose proof (generateAnswer_run world env q (t :: ts) w1) as H2.
  destruct (run world (generateAnswer env q (t :: ts)) w1) as [[o2 tr2] w2].
  destruct H2 as [Hp2 _].
  pose proof (without_embedder_questions tr2
                (parties_not Model Embedder tr2 ltac:(discriminate) Hp2))
    as Hemb2.
  destruct o2 as [answer | e].
  2: { cbn [bind ask run]. step.
       cbn [embedded_questions]. rewrite !embedded_questions_app, Hemb2.
       cbn [embedded_questions]. rewrite !app_nil_r. exact Hall. }
  cbn [bind ask run]. step.
  cbn [embedded_questions]. rewrite !embedded_questions_app, Hemb2.
  cbn [embedded_questions]. rewrite !app_nil_r. exact Hall.
Qed.

Lemma stocked_honours_topK : honours_topK (answers stocked).
Proof.
  intros index q w. cbn [answers fst search stocked].
  rewrite length_firstn. apply Nat.le_min_l.
Qed.

(** C5. In every world whose store returns at most [topK] matches to a
    search: the answer handler hands the retriever nothing but the
    request's question, once it is known to be a non-empty string; and on
    every such question a run of the retriever that returns has
    constructed the embeddings client, embedded the question, reached the
    index and searched it with the question's vector and [topK = 3], and
    returns, in the order of the matches, the [text] of those matches
    whose metadata holds a non-empty string there.  Hence every returned
    element is a non-empty string and there are at most 3 of them.  A run
    that throws throws the error of the call that failed, and adds none
    of its own. *)
Theorem C5_retrieval (env : environment) {W : Type} (world : oracle W) :
  honours_topK world ->
  (forall w req_body,
     let '(_, tr, _) := run world (answer_question env req_body) w in
     Forall (fun q => get req_body "question" = VString q
                      /\ q <> EmptyString)
       (embedded_questions tr))
  /\ (forall w question,
        question <> EmptyString ->
        let '(o, tr, _) :=
          run world (queryDocument env (VString question)) w in
        retrieval env question o tr).
Proof.
  intro Htop. split; [intros w req_body; apply answer_question_embeds |].
  intros w question Hne.
  unfold queryDocument. rewrite (not_a_text_string _ Hne). simpl.
  step_await; [reflexivity |].
  step_await; [reflexivity |].
  step_await; [reflexivity |].
  step_await; [reflexivity |].
  step_await; [reflexivity |].
  destruct x as [], x1 as [], x2 as [].
  exists x0, x3. split; [reflexivity |].
  rewrite relevantChunks_kept. split; [reflexivity |].
  split; [apply kept_texts_nonempty |].
  pose proof (kept_texts_length x3) as Hlen.
  split; [exact Hlen |].
  match goal with
  | H : world _ (Query ?index ?q) ?w' = (inr x3, _) |- _ =>
      pose proof (Htop index q w') as Hq; rewrite H in Hq
  end.
  cbn [fst topK] in Hq. change (Z.to_nat 3) with 3%nat in Hq. lia.
Qed.

Lemma C5_retrieval_witness :
  honours_topK (answers stocked)
  /\ "Who sat?" <> EmptyString
  /\ retrieval test_env "Who sat?"
       (Returned ["A cat sat on a mat."; "The mat was red."])
       [ Ev (NewEmbeddings (embeddings test_env)) (inr tt);
         Ev (EmbedQuery (embeddings test_env) "Who sat?") (inr [one]);
         Ev (NewPinecone "pc-key") (inr tt);
         Ev (PineconeIndex PINECONE_INDEX_NAME) (inr tt);
         Ev (Query PINECONE_INDEX_NAME
               {| query_vector := [one]; topK := 3; includeMetadata := true |})
            (inr [ {| match_id := "chunk_0";
                      match_score := one;
                      match_metadata :=
                        Some [("text", VString "A cat sat on a mat.")] |};
                   {| match_id := "chunk_1";
                      match_score := one;
                      match_metadata := None |};
                   {| match_id := "chunk_2";
                      match_score := one;
                      match_metadata :=
                        Some [("text", VString "The mat was red.")] |} ]) ].
Proof.
  split; [exact stocked_honours_topK |].
  split; [discriminate |].
  apply (proj2 (C5_retrieval test_env (answers stocked) stocked_honours_topK)
           start "Who sat?").
  discriminate.
Defined.

(** The handler on a request that passes the checks: the one question
    embedded is the request's. *)
Example handler_embeds_the_question :
  let '(_, tr, _) :=
    run (answers stocked)
      (answer_question test_env [("question", VString "Who sat?")]) start in
  embedded_questions tr = ["Who sat?"].
Proof. reflexivity. Qed.
